(** * Obstacle primitives of the navigation stack

    A shallow embedding of [pybots/src/navigation/obstacle_primitives.py]:
    the flat polygonal obstacle [ShapePrimitive] and its altitude-bounded
    extrusion [PrismaticShape], in a local north-east-down frame.

    Numbers are IEEE-754 binary64 values (Python's [float], numpy's
    [float64]), taken from the Standard Library's executable specification
    [SpecFloat].  The polygon library (shapely), [geometry.lines] and the
    array library (numpy) are collaborators: their geometric operations are
    the fields of a few classes; what Python itself does (name
    resolution, attribute lookup, assertions, dictionary access) is modelled
    with an error monad. *)

From stdpp Require Import gmap strings.
From Stdlib Require Import ZArith List Bool String Lia Floats.SpecFloat.
#[local] Set Warnings "-register-all".
Import ListNotations.
Open Scope Z_scope.

(* ===================================================================== *)
(** ** Binary64 arithmetic *)
(* ===================================================================== *)

Module F64.

Definition float := spec_float.

Definition prec : Z := 53.
Definition emax : Z := 1024.

Definition add : float -> float -> float := SFadd prec emax.
Definition sub : float -> float -> float := SFsub prec emax.
Definition mul : float -> float -> float := SFmul prec emax.
Definition div : float -> float -> float := SFdiv prec emax.
Definition sqrt : float -> float := SFsqrt prec emax.

(** Python's [<], [<=], [>], [>=] on floats: false as soon as an operand
    is a NaN. *)
Definition ltb : float -> float -> bool := SFltb.
Definition leb : float -> float -> bool := SFleb.
Definition gtb (x y : float) : bool := SFltb y x.
Definition geb (x y : float) : bool := SFleb y x.
Definition eqb : float -> float -> bool := SFeqb.

Definition zero : float := S754_zero false.
Definition one : float := S754_finite false 4503599627370496 (-52).
Definition inf : float := S754_infinity false.
Definition neg_inf : float := S754_infinity true.
Definition nan : float := S754_nan.

(** The literal [1.e-6], i.e. [0x1.0c6f7a0b5ed8dp-20]. *)
Definition micro : float := S754_finite false 4722366482869645 (-72).

(** The binary64 value of an integer (exact for the small integers used
    in the scenarios). *)
Definition of_Z (n : Z) : float := binary_normalize prec emax n 0 false.

Definition is_nan (x : float) : bool :=
  match x with S754_nan => true | _ => false end.

Definition is_zero (x : float) : bool :=
  match x with S754_zero _ => true | _ => false end.

(** [numpy.isfinite]. *)
Definition is_finite (x : float) : bool :=
  match x with
  | S754_zero _ | S754_finite _ _ _ => true
  | _ => false
  end.

(** numpy's scalar kernels [_NPY_MAX] and [_NPY_MIN], which propagate a
    NaN first operand, and [numpy.clip(x, lo, hi)], which numpy evaluates
    as [_NPY_MIN(_NPY_MAX(x, lo), hi)]. *)
Definition npy_max (a b : float) : float :=
  if is_nan a || gtb a b then a else b.
Definition npy_min (a b : float) : float :=
  if is_nan a || ltb a b then a else b.
Definition clip (x lo hi : float) : float := npy_min (npy_max x lo) hi.

(** Python's builtin [min(a, b)]: the second argument is returned only
    when it compares strictly below the first. *)
Definition py_min (a b : float) : float := if ltb b a then b else a.

(** The position of a number in the order of the floats, as a triple
    compared lexicographically: class, then exponent, then mantissa
    (both negated below zero).  A NaN has no position. *)
Definition key (x : float) : option (Z * Z * Z) :=
  match x with
  | S754_nan => None
  | S754_infinity true => Some (-2, 0, 0)
  | S754_infinity false => Some (2, 0, 0)
  | S754_zero _ => Some (0, 0, 0)
  | S754_finite true m e => Some (-1, - e, Zneg m)
  | S754_finite false m e => Some (1, e, Zpos m)
  end.

Definition lex_compare (a b : Z * Z * Z) : comparison :=
  match fst (fst a) ?= fst (fst b) with
  | Eq =>
      match snd (fst a) ?= snd (fst b) with
      | Eq => snd a ?= snd b
      | c => c
      end
  | c => c
  end.

Definition lex_lt (a b : Z * Z * Z) : Prop :=
  fst (fst a) < fst (fst b)
  \/ (fst (fst a) = fst (fst b)
      /\ (snd (fst a) < snd (fst b)
          \/ (snd (fst a) = snd (fst b) /\ snd a < snd b))).

(** What rounding a non-negative mantissa can give: a zero, a finite
    number or an infinity, each of the requested sign. *)
Definition rounded (s : bool) (x : float) : Prop :=
  x = S754_zero s \/ x = S754_infinity s
  \/ exists m e, x = S754_finite s m e.

End F64.

Abbreviation float := F64.float.

(* ===================================================================== *)
(** ** Python exceptions *)
(* ===================================================================== *)

Inductive exn : Type :=
| NameError (name : string)
| AttributeError (name : string)
| AssertionError (msg : string)
| KeyError (key : string)
| TypeError (what : string)
| ValueError (what : string)
| IndexError (what : string)
| DimensionError (what : string)
| ArgumentError (what : string).

Inductive result (A : Type) : Type :=
| Ok (a : A)
| Raise (e : exn).
Arguments Ok {A} a.
Arguments Raise {A} e.

Definition bind {A B : Type} (r : result A) (k : A -> result B) : result B :=
  match r with
  | Ok a => k a
  | Raise e => Raise e
  end.

Notation "'let*' x ':=' r 'in' k" := (bind r (fun x => k))
  (at level 10, x name, r at level 100, k at level 200).
(** A loop body run over a list, stopping at the first exception. *)
Fixpoint for_each {A B : Type} (body : A -> result (list B)) (l : list A)
  : result (list B) :=
  match l with
  | [] => Ok []
  | a :: l' =>
      let* out := body a in
      let* rest := for_each body l' in
      Ok (out ++ rest)
  end.

(* ===================================================================== *)
(** ** Geometry values *)
(* ===================================================================== *)

(** A shapely [Point] with three coordinates (north, east, down). *)
Record Point : Type := mkPoint { px : float; py : float; pz : float }.

(** A [1x3] numpy array: the offset vector from a point to a boundary. *)
Record Vec : Type := mkVec { vn : float; ve : float; vd : float }.

(** A shapely [LineString]: its vertices, with or without elevations
    ([has_z]). *)
Inductive LineString : Type :=
| Line2D (xy : list (float * float))
| Line3D (xyz : list Point).

Definition has_z (l : LineString) : bool :=
  match l with Line3D _ => true | Line2D _ => false end.

(** A closed boundary curve ([LinearRing]) in the north-east plane. *)
Definition Ring : Type := list (float * float).

(** A shapely [Polygon]: exterior ring and holes in declaration order. *)
Record Polygon : Type := mkPolygon { exterior : Ring; interiors : list Ring }.

(** What [path.intersection(ring)] can hand back. *)
Inductive Geom : Type :=
| GPoint (p : Point)
| GLineString (l : list Point)
| GMultiPoint (ps : list Point)
| GCollection (gs : list Geom).

(** Values held by the tuples the path queries return: an intersection
    geometry, or (for holes) a tuple of them. *)
Inductive PyVal : Type :=
| VGeom (g : Geom)
| VTuple (items : list PyVal).

(** [numpy.zeros((1,3))] and [numpy.ones((1,3)) * numpy.inf]. *)
Definition zeros13 : Vec := mkVec F64.zero F64.zero F64.zero.
Definition inf13 : Vec := mkVec F64.inf F64.inf F64.inf.

(** [vector[0,2] = dz]. *)
Definition set_down (v : Vec) (dz : float) : Vec := mkVec (vn v) (ve v) dz.

(** [numpy.linalg.norm] of a [1x3] array: the square root of the dot
    product of the flattened array with itself, in binary64. *)
Definition norm (v : Vec) : float :=
  F64.sqrt
    (F64.add (F64.add (F64.mul (vn v) (vn v)) (F64.mul (ve v) (ve v)))
             (F64.mul (vd v) (vd v))).

(** The collaborators' operations, grouped by what they answer.  Each
    field is the call the source makes. *)

(** shapely's containment predicates. *)
Class Containment : Type := {
  (** [point.within(polygon)] *)
  point_within : Point -> Polygon -> bool;
  (** [line.within(polygon)] *)
  line_within : LineString -> Polygon -> bool;
  (** [line.intersects(polygon)] *)
  line_intersects : LineString -> Polygon -> bool
}.

(** [geometry.lines.point_line_distance(point, ring)[0]]: the offset from
    the point to the nearest point of the curve. *)
Class Distance : Type := {
  point_line_distance : Point -> Ring -> Vec
}.

(** [path.intersection(ring)]. *)
Class Intersect : Type := {
  intersection : LineString -> Ring -> Geom
}.

(** Linear referencing along a path: [path.project(geom)] and
    [path.interpolate(distance)]. *)
Class Locate : Type := {
  project : LineString -> Geom -> float;
  interpolate : LineString -> float -> Point
}.

(** Cutting a path at its vertices,
    [shapely.ops.split(path, MultiPoint(path.coords[1:]))], and
    [segment.interpolate(fraction, normalized=True)]. *)
Class Segments : Type := {
  split : LineString -> list Point -> result (list LineString);
  interpolate_normalized : LineString -> float -> Point
}.

(* ===================================================================== *)
(** ** Python name resolution *)
(* ===================================================================== *)

(** What a name evaluates to inside a method body: a geometry held by a
    local variable, or some other object (a module, a class, [self]). *)
Inductive PyObj : Type :=
| OGeom (g : Geom)
| OOther.

(** The names bound at module level by the source file: its imports, its
    helper function and its two classes. *)
Definition module_globals : list string :=
  ["hashlib"; "numpy"; "pdb"; "shapely"; "geometry";
   "_numpy_to_linestring"; "ShapePrimitive"; "PrismaticShape"]%string.

(** The builtins the source file calls. *)
Definition builtins : list string :=
  ["isinstance"; "type"; "tuple"; "list"; "float"; "str"; "super";
   "object"]%string.

Fixpoint assoc {A : Type} (name : string) (env : list (string * A))
  : option A :=
  match env with
  | [] => None
  | (n, v) :: env' => if String.eqb n name then Some v else assoc name env'
  end.

Definition mem (name : string) (names : list string) : bool :=
  existsb (String.eqb name) names.

(** Reading a name: the function's locals first, then the module's globals,
    then the builtins; a name bound nowhere raises [NameError]. *)
Definition load_name (locals : list (string * PyObj)) (name : string)
  : result PyObj :=
  match assoc name locals with
  | Some v => Ok v
  | None =>
      if mem name module_globals || mem name builtins then Ok OOther
      else Raise (NameError name)
  end.

(** [isinstance(obj, shapely.geometry.LineString)] and
    [isinstance(obj, shapely.geometry.Point)]. *)
Definition isinstance_LineString (o : PyObj) : bool :=
  match o with OGeom (GLineString _) => true | _ => false end.
Definition isinstance_Point (g : Geom) : bool :=
  match g with GPoint _ => true | _ => false end.

(** [geom.is_empty]. *)
Fixpoint is_empty (g : Geom) : bool :=
  match g with
  | GPoint _ => false
  | GLineString l => match l with [] => true | _ => false end
  | GMultiPoint ps => match ps with [] => true | _ => false end
  | GCollection gs => forallb is_empty gs
  end.

(** Iterating a geometry, as [tuple(geom)] does: multi-part geometries
    yield their parts, single geometries are not iterable. *)
Definition iterate (g : Geom) : result (list Geom) :=
  match g with
  | GMultiPoint ps => Ok (map GPoint ps)
  | GCollection gs => Ok gs
  | GPoint _ => Raise (TypeError "'Point' object is not iterable")
  | GLineString _ => Raise (TypeError "'LineString' object is not iterable")
  end.

(** Values a definition dictionary (read from a yaml file) can hold. *)
Inductive DVal : Type :=
| DNone
| DShape (p : Polygon)
| DNum (x : float)
| DStr (s : string).

(** [definition[key]]. *)
Definition getitem (definition : gmap string DVal) (key : string)
  : result DVal :=
  match definition !! key with
  | Some v => Ok v
  | None => Raise (KeyError key)
  end.

(** [shapely.geometry.Polygon(value)].  A string is taken for a sequence
    of coordinates: with fewer than three characters there are too few of
    them, with three or more the first one fails the assertion on the
    number of ordinates. *)
Definition to_polygon (v : DVal) : result Polygon :=
  match v with
  | DShape p => Ok p
  | DNone => Ok (mkPolygon [] [])
  | DNum _ => Raise (TypeError "object of type 'float' has no len()")
  | DStr s =>
      if (3 <=? String.length s)%nat
      then Raise (AssertionError EmptyString)
      else Raise (ValueError "a polygon needs coordinate tuples")
  end.

(** A dictionary value used as an operand of float arithmetic. *)
Definition as_number (v : DVal) : result float :=
  match v with
  | DNum x => Ok x
  | _ => Raise (TypeError "unsupported operand type(s)")
  end.

(* ===================================================================== *)
(** ** [class ShapePrimitive] *)
(* ===================================================================== *)

(** Each query starts by turning a numpy array argument into the shapely
    object ([Point] or, through [_numpy_to_linestring], [LineString]); the
    embedding takes the argument after that conversion. *)
Module ShapePrimitive.

(** The instance attributes set by [define_from_dictionary]. *)
Record t : Type := mk { _shape : Polygon; _id : DVal; _epsilon : DVal }.

(** Every attribute an instance of the class answers to. *)
Definition attributes : list string :=
  ["__init__"; "define_from_dictionary"; "id"; "is_point_inside";
   "is_path_inside"; "nearest_exterior"; "nearest_hole";
   "nearest_boundary"; "exterior_intersections"; "hole_intersections";
   "intersections"; "_shape"; "_id"; "_epsilon"]%string.

(** [define_from_dictionary]; [digest] is the md5 hex digest the source
    synthesises from the shape, a random draw and the dictionary when the
    definition carries no id. *)
Definition define_from_dictionary (digest : string)
    (definition : gmap string DVal) : result t :=
  let* raw := getitem definition "shape" in
  let* shape := to_polygon raw in
  let id :=
    match definition !! "id"%string with
    | None => DStr digest
    | Some v => v
    end in
  let epsilon :=
    match definition !! "epsilon"%string with
    | None => DNum F64.micro
    | Some v => v
    end in
  Ok (mk shape id epsilon).

(** [__init__(shape=None, definition=None)]. *)
Definition __init__ (digest : string) (shape : option Polygon)
    (definition : option (gmap string DVal)) : result t :=
  match definition with
  | Some d => define_from_dictionary digest d
  | None =>
      let v := match shape with Some p => DShape p | None => DNone end in
      define_from_dictionary digest {[ "shape"%string := v ]}
  end.

Definition id (self : t) : DVal := _id self.

Section Queries.
Context {C : Containment} {D : Distance} {I : Intersect}.

Definition is_point_inside (self : t) (point : Point) : bool :=
  point_within point (_shape self).

Definition is_path_inside (self : t) (path : LineString) : bool :=
  line_within path (_shape self).

Definition nearest_exterior (self : t) (point : Point) : Vec :=
  point_line_distance point (exterior (_shape self)).

(** One turn of the loop over the holes. *)
Definition nearer_hole (point : Point) (vector_to_boundary : Vec)
    (shape : Ring) : Vec :=
  let dist := point_line_distance point shape in
  if F64.ltb (norm dist) (norm vector_to_boundary) then dist
  else vector_to_boundary.

Definition nearest_hole (self : t) (point : Point) : Vec :=
  fold_left (nearer_hole point) (interiors (_shape self)) inf13.

(** [nearest_boundary]; the two calls go through [self], so a subclass
    instance reaches its own overrides: they are the arguments
    [self_nearest_exterior] and [self_nearest_hole]. *)
Definition nearest_boundary_of
    (self_nearest_exterior self_nearest_hole : Point -> Vec)
    (point : Point) : Vec :=
  let r_exterior := self_nearest_exterior point in
  let r_hole := self_nearest_hole point in
  if F64.ltb (norm r_hole) (norm r_exterior) then r_hole
  else r_exterior.

Definition nearest_boundary (self : t) (point : Point) : Vec :=
  nearest_boundary_of (nearest_exterior self) (nearest_hole self) point.

(** [exterior_intersections]: the first test reads the name
    [intersections], which this function never binds. *)
Definition exterior_intersections (self : t) (path : LineString)
    : result (list Geom) :=
  let intersection_ := intersection path (exterior (_shape self)) in
  let locals :=
    [("self", OOther); ("path", OOther);
     ("intersection", OGeom intersection_)]%string in
  let* intersections_ := load_name locals "intersections" in
  if isinstance_LineString intersections_ && is_empty intersection_
  then Ok []
  else if isinstance_Point intersection_ then Ok [intersection_]
  else iterate intersection_.

(** The body of the loop over the holes in [hole_intersections]. *)
Definition one_hole_intersections (path : LineString) (hole : Ring)
    : result (list (list Geom)) :=
  let this_hole_intersections := intersection path hole in
  match this_hole_intersections with
  | GPoint _ => Ok [[this_hole_intersections]]
  | GLineString l =>
      match l with
      | [] => Raise (IndexError "index 0 is out of bounds")
      | first :: _ => Ok [[GPoint first]]
      end
  | _ =>
      let* pts := iterate this_hole_intersections in
      Ok [pts]
  end.

Definition hole_intersections (self : t) (path : LineString)
    : result (list (list Geom)) :=
  for_each (one_hole_intersections path) (interiors (_shape self)).

(** The path queries of the class, by attribute name. *)
Definition path_methods (self : t)
    : list (string * (LineString -> result (list PyVal))) :=
  [("exterior_intersections",
     fun path =>
       let* pts := exterior_intersections self path in
       Ok (map VGeom pts));
   ("hole_intersections",
     fun path =>
       let* holes := hole_intersections self path in
       Ok (map (fun pts => VTuple (map VGeom pts)) holes))]%string.

(** [self.<name>] used as a path query. *)
Definition getattr (self : t) (name : string)
    : result (LineString -> result (list PyVal)) :=
  match assoc name (path_methods self) with
  | Some method => Ok method
  | None =>
      if mem name attributes
      then Raise (TypeError "not a path query")
      else Raise (AttributeError name)
  end.

(** [intersections]. *)
Definition intersections (self : t) (path : LineString)
    : result (list PyVal) :=
  let* exterior_intersection := getattr self "exterior_intersection" in
  let* from_exterior := exterior_intersection path in
  let* hole_intersection := getattr self "hole_intersection" in
  let* from_holes := hole_intersection path in
  Ok (from_exterior ++ from_holes).

End Queries.

End ShapePrimitive.

(* ===================================================================== *)
(** ** [class PrismaticShape(ShapePrimitive)] *)
(* ===================================================================== *)

Module PrismaticShape.

(** The inherited attributes, plus [_z0] (down position of the base) and
    [_zt] (down position of the top). *)
Record t : Type := mk { base : ShapePrimitive.t; _z0 : float; _zt : float }.

Definition _shape (self : t) : Polygon := ShapePrimitive._shape (base self).
Definition _epsilon (self : t) : DVal := ShapePrimitive._epsilon (base self).

(** [float(value)]; [parse] is Python's reading of a numeric string. *)
Definition to_float (parse : string -> option float) (v : DVal)
    : result float :=
  match v with
  | DNum x => Ok x
  | DStr s =>
      match parse s with
      | Some x => Ok x
      | None => Raise (ValueError "could not convert string to float")
      end
  | _ => Raise (TypeError "float() argument must be a string or a number")
  end.

Definition define_from_dictionary (parse : string -> option float)
    (digest : string) (definition : gmap string DVal) : result t :=
  let* super := ShapePrimitive.define_from_dictionary digest definition in
  let* raw_z0 := getitem definition "z0" in
  let* z0 := to_float parse raw_z0 in
  let* raw_zt := getitem definition "zt" in
  let* zt := to_float parse raw_zt in
  Ok (mk super z0 zt).

(** [__init__(shape=None, z0=None, zt=None, definition=None)]. *)
Definition __init__ (parse : string -> option float) (digest : string)
    (shape : option Polygon) (z0 zt : option float)
    (definition : option (gmap string DVal)) : result t :=
  match definition with
  | Some d => define_from_dictionary parse digest d
  | None =>
      let z0 := match z0 with Some z => z | None => F64.inf end in
      let zt := match zt with Some z => z | None => F64.neg_inf end in
      let v := match shape with Some p => DShape p | None => DNone end in
      define_from_dictionary parse digest
        (<[ "shape"%string := v ]>
           (<[ "z0"%string := DNum z0 ]> {[ "zt"%string := DNum zt ]}))
  end.

Section Queries.
Context {C : Containment} {D : Distance} {I : Intersect}
        {L : Locate} {S : Segments}.

Definition is_point_inside (self : t) (point : Point) : bool :=
  let is_inside := ShapePrimitive.is_point_inside (base self) point in
  is_inside && F64.gtb (pz point) (_zt self)
            && F64.ltb (pz point) (_z0 self).

(** The elevation column [numpy.array(path)[:,2]]. *)
Definition elevations (path : LineString) : list float :=
  match path with
  | Line3D xyz => map pz xyz
  | Line2D _ => []
  end.

Definition is_path_inside (self : t) (path : LineString) : result bool :=
  if has_z path then
    let is_inside := ShapePrimitive.is_path_inside (base self) path in
    let z := elevations path in
    Ok (is_inside
        && forallb (fun zi => F64.gtb zi (_zt self)) z
        && forallb (fun zi => F64.ltb zi (_z0 self)) z)
  else Raise (AssertionError "path must have xyz coordinates").

Definition _z_difference (self : t) (point : Point) (vector : Vec)
    : Vec :=
  let dz :=
    F64.sub (F64.clip (pz point) (_zt self) (_z0 self)) (pz point) in
  set_down vector dz.

Definition nearest_exterior (self : t) (point : Point) : Vec :=
  let vector_to_boundary :=
    if point_within point (_shape self) then zeros13
    else ShapePrimitive.nearest_exterior (base self) point in
  _z_difference self point vector_to_boundary.

Definition nearest_hole (self : t) (point : Point) : Vec :=
  let vector_to_boundary :=
    ShapePrimitive.nearest_hole (base self) point in
  _z_difference self point vector_to_boundary.

(** The inherited [nearest_boundary] runs on this instance, so its two
    calls through [self] reach the overrides above. *)
Definition nearest_boundary (self : t) (point : Point) : Vec :=
  let vector_to_boundary :=
    ShapePrimitive.nearest_boundary_of
      (nearest_exterior self) (nearest_hole self) point in
  _z_difference self point vector_to_boundary.

(** The body of the loop of [_check_z_intersection].  The point
    interpolated on a path without elevations has none either, and reading
    [ip.z] fails before epsilon is looked at. *)
Definition check_one (self : t) (path : LineString) (i : Geom)
    : result (list Geom) :=
  let ip := interpolate path (project path i) in
  if has_z path then
    let* epsilon := as_number (_epsilon self) in
    if F64.leb (F64.sub (pz ip) epsilon) (_z0 self)
       && F64.geb (F64.add (pz ip) epsilon) (_zt self)
    then Ok [GPoint ip]
    else Ok []
  else Raise (DimensionError "This point has no z coordinate.").

Definition _check_z_intersection (self : t) (path : LineString)
    (flat_intersections : list Geom) : result (list Geom) :=
  for_each (check_one self path) flat_intersections.

(** The crossings of one segment with the base and top planes: the
    part of the loop body of [_z_intersection] after the footprint
    test.  [z_first] is [s_z[0]] and [z_last - z_first] is
    [numpy.diff(s_z)]. *)
Definition plane_crossings (self : t) (s : LineString)
    (z_first z_last : float) : list Point :=
  let span := F64.sub z_last z_first in
  let f_0 := F64.div (F64.sub (_z0 self) z_first) span in
  let bottom_intersection := interpolate_normalized s f_0 in
  let f_t := F64.div (F64.sub (_zt self) z_first) span in
  let top_intersection := interpolate_normalized s f_t in
  (if F64.gtb f_0 F64.zero && F64.ltb f_0 F64.one
      && point_within bottom_intersection (_shape self)
   then [interpolate_normalized s f_0] else [])
  ++
  (if F64.gtb f_t F64.zero && F64.ltb f_t F64.one
      && point_within top_intersection (_shape self)
   then [interpolate_normalized s f_t] else []).

(** The body of the loop of [_z_intersection].  A segment cut between
    two consecutive vertices has two coordinates; with more of them the
    fraction is an array of several numbers and the interpolation call
    rejects its argument. *)
Definition z_intersection_one (self : t) (s : LineString)
    : result (list Point) :=
  if negb (line_within s (_shape self)
           || line_intersects s (_shape self))
  then Ok []
  else
    match s with
    | Line2D _ => Raise (IndexError "index 2 is out of bounds for axis 1")
    | Line3D [a; b] => Ok (plane_crossings self s (pz a) (pz b))
    | Line3D (_ :: _ :: _ :: _) =>
        Raise (ArgumentError "argument 2: TypeError: wrong type")
    | Line3D _ =>
        Raise (TypeError "only size-1 arrays can be converted")
    end.

Definition _z_intersection (self : t) (path : LineString)
    : result (list Point) :=
  match path with
  | Line2D (_ :: _ :: _) =>
      Raise (ValueError "not enough values to unpack (expected 3)")
  | Line2D _ =>
      let* segments := split path [] in
      for_each (z_intersection_one self) segments
  | Line3D xyz =>
      let* segments := split path (tl xyz) in
      for_each (z_intersection_one self) segments
  end.

(** [hole_intersections] is inherited unchanged. *)
Definition hole_intersections (self : t) (path : LineString)
    : result (list (list Geom)) :=
  ShapePrimitive.hole_intersections (base self) path.

Definition exterior_intersections (self : t) (path : LineString)
    : result (list Geom) :=
  let* flat_intersections :=
    ShapePrimitive.exterior_intersections (base self) path in
  let* from_planes := _z_intersection self path in
  _check_z_intersection self path
    (flat_intersections ++ map GPoint from_planes).

Definition intersections (self : t) (path : LineString)
    : result (list PyVal) :=
  let* from_exterior := exterior_intersections self path in
  let* from_holes := hole_intersections self path in
  Ok (map VGeom from_exterior
      ++ map (fun pts => VTuple (map VGeom pts)) from_holes).

End Queries.

End PrismaticShape.

(* ===================================================================== *)
(** ** Reference collaborators for rectangular rings *)
(* ===================================================================== *)

(** The answers of the collaborators when every ring is an axis-aligned
    rectangle, computed in binary64.  They are exact for points and
    vertices that do not lie on a boundary; the scenarios below stay in
    that domain. *)
Module Rect.

Definition fmin (a b : float) : float := if F64.ltb b a then b else a.
Definition fmax (a b : float) : float := if F64.ltb a b then b else a.

(** A rectangle as [(north_min, north_max, east_min, east_max)]. *)
Record box : Type :=
  mkBox { n_min : float; n_max : float; e_min : float; e_max : float }.

Definition bounds (r : Ring) : option box :=
  match r with
  | [] => None
  | (n, e) :: r' =>
      Some (fold_left
              (fun b v =>
                 mkBox (fmin (n_min b) (fst v)) (fmax (n_max b) (fst v))
                       (fmin (e_min b) (snd v)) (fmax (e_max b) (snd v)))
              r' (mkBox n n e e))
  end.

Definition strictly_inside (n e : float) (b : box) : bool :=
  F64.ltb (n_min b) n && F64.ltb n (n_max b)
  && F64.ltb (e_min b) e && F64.ltb e (e_max b).

Definition inside_or_on (n e : float) (b : box) : bool :=
  F64.leb (n_min b) n && F64.leb n (n_max b)
  && F64.leb (e_min b) e && F64.leb e (e_max b).

Definition holes (poly : Polygon) : list box :=
  flat_map (fun r => match bounds r with Some b => [b] | None => [] end)
           (interiors poly).

(** Strictly inside the exterior and outside every closed hole. *)
Definition within (p : Point) (poly : Polygon) : bool :=
  match bounds (exterior poly) with
  | None => false
  | Some b =>
      strictly_inside (px p) (py p) b
      && forallb (fun h => negb (inside_or_on (px p) (py p) h)) (holes poly)
  end.

(** On which side of the line through [a] and [b] the corner [(n, e)]
    lies. *)
Definition side (a b : Point) (n e : float) : float :=
  F64.sub (F64.mul (F64.sub (px b) (px a)) (F64.sub e (py a)))
          (F64.mul (F64.sub (py b) (py a)) (F64.sub n (px a))).

(** The segment from [a] to [b] meets the closed rectangle: their extents
    overlap and the corners are not all strictly on one side. *)
Definition meets (a b : Point) (bx : box) : bool :=
  let corners :=
    [side a b (n_min bx) (e_min bx); side a b (n_min bx) (e_max bx);
     side a b (n_max bx) (e_min bx); side a b (n_max bx) (e_max bx)] in
  F64.leb (fmin (px a) (px b)) (n_max bx)
  && F64.leb (n_min bx) (fmax (px a) (px b))
  && F64.leb (fmin (py a) (py b)) (e_max bx)
  && F64.leb (e_min bx) (fmax (py a) (py b))
  && negb (forallb (fun c => F64.ltb F64.zero c) corners)
  && negb (forallb (fun c => F64.ltb c F64.zero) corners).

Fixpoint pairs (l : list Point) : list (Point * Point) :=
  match l with
  | a :: ((b :: _) as l') => (a, b) :: pairs l'
  | _ => []
  end.

Definition vertices (l : LineString) : list Point :=
  match l with
  | Line3D xyz => xyz
  | Line2D xy => map (fun v => mkPoint (fst v) (snd v) F64.zero) xy
  end.

Definition path_within (l : LineString) (poly : Polygon) : bool :=
  match vertices l with
  | [] => false
  | vs =>
      forallb (fun p => within p poly) vs
      && forallb
           (fun ab => forallb (fun h => negb (meets (fst ab) (snd ab) h))
                              (holes poly))
           (pairs vs)
  end.

Definition path_meets (l : LineString) (poly : Polygon) : bool :=
  match bounds (exterior poly) with
  | None => false
  | Some b =>
      existsb
        (fun ab =>
           meets (fst ab) (snd ab) b
           && negb (existsb
                      (fun h =>
                         strictly_inside (px (fst ab)) (py (fst ab)) h
                         && strictly_inside (px (snd ab)) (py (snd ab)) h)
                      (holes poly)))
        (pairs (vertices l))
  end.

(** A coordinate moved onto the interval [[lo, hi]]. *)
Definition clamp (x lo hi : float) : float := fmin (fmax x lo) hi.

(** The offset from [p] to the nearest point of the rectangle's outline:
    for a point outside, the point clamped onto the rectangle; for a point
    inside, the foot on the nearest side (north sides first on a tie). *)
Definition to_outline (p : Point) (b : box) : Vec :=
  let n := px p in
  let e := py p in
  if strictly_inside n e b then
    let dn0 := F64.sub (n_min b) n in
    let dn1 := F64.sub (n_max b) n in
    let de0 := F64.sub (e_min b) e in
    let de1 := F64.sub (e_max b) e in
    let candidates :=
      [mkVec dn1 F64.zero F64.zero; mkVec F64.zero de0 F64.zero;
       mkVec F64.zero de1 F64.zero] in
    fold_left (fun best v => if F64.ltb (norm v) (norm best) then v else best)
              candidates (mkVec dn0 F64.zero F64.zero)
  else
    mkVec (F64.sub (clamp n (n_min b) (n_max b)) n)
          (F64.sub (clamp e (e_min b) (e_max b)) e)
          F64.zero.

Definition distance (p : Point) (r : Ring) : Vec :=
  match bounds r with
  | Some b => to_outline p b
  | None => inf13
  end.

(** The point at fraction [f] of a two-vertex segment; fractions outside
    [[0, 1]] stop at the ends, a fraction that is not a number yields
    coordinates that are not numbers. *)
Definition along (s : LineString) (f : float) : Point :=
  match vertices s with
  | [a; b] =>
      if F64.leb f F64.zero then a
      else if F64.leb F64.one f then b
      else
        mkPoint (F64.add (px a) (F64.mul f (F64.sub (px b) (px a))))
                (F64.add (py a) (F64.mul f (F64.sub (py b) (py a))))
                (F64.add (pz a) (F64.mul f (F64.sub (pz b) (pz a))))
  | a :: _ => a
  | [] => mkPoint F64.nan F64.nan F64.nan
  end.

(** Two points standing on the same point of the plane, and two points
    with the same three coordinates. *)
Definition same_place (a b : Point) : bool :=
  F64.eqb (px a) (px b) && F64.eqb (py a) (py b).

Definition same_coords (a b : Point) : bool :=
  same_place a b && F64.eqb (pz a) (pz b).

(** A line whose two ends stand on the same point of the plane has no
    boundary. *)
Definition closed (cs : list Point) : bool :=
  match cs with
  | [] => false
  | c :: _ => same_place c (List.last cs c)
  end.

(** A cut point in the interior of a line: on one of its vertices, and not
    on one of its two ends unless the line is closed.  (A line passing
    through the cut point between two vertices is outside this
    reference.) *)
Definition inside_line (cs : list Point) (p : Point) : bool :=
  match cs with
  | [] => false
  | c :: _ =>
      existsb (same_place p) cs
      && (closed cs
          || negb (same_place p c || same_place p (List.last cs c)))
  end.

(** The position of the first vertex standing where [p] stands. *)
Fixpoint index_of (p : Point) (cs : list Point) : nat :=
  match cs with
  | [] => O
  | c :: cs' => if same_place p c then O else S (index_of p cs')
  end.

(** One line cut at one point, as [shapely.ops.split] does it: a point off
    the interior of the line, or equal to its first vertex, leaves the line
    whole; otherwise the line is cut at the first vertex whose distance
    along the line is that of the point.  A piece of one vertex cannot be
    built: the line of two vertices standing on one point of the plane is
    refused. *)
Definition cut_at (chunk : list Point) (p : Point)
    : result (list (list Point)) :=
  match chunk with
  | [] => Ok [chunk]
  | c0 :: tail =>
      if negb (inside_line chunk p) then Ok [chunk]
      else if same_coords c0 p then Ok [chunk]
      else
        match index_of p chunk, tail with
        | O, c1 :: rest =>
            if same_place c0 c1 then
              match rest with
              | [] =>
                  Raise (ValueError
                           "LineStrings must have at least 2 coordinate tuples")
              | _ :: _ => Ok [[c0; c1]; c1 :: rest]
              end
            else Ok [[c0; p]; p :: c1 :: rest]
        | O, [] => Ok [chunk]
        | S j, _ => Ok [firstn (S (S j)) chunk; skipn (S j) chunk]
        end
  end.

(** Every piece cut at every point in turn. *)
Fixpoint cut_all (chunks : list (list Point)) (cuts : list Point)
    : result (list (list Point)) :=
  match cuts with
  | [] => Ok chunks
  | p :: cuts' =>
      let* new_chunks := for_each (fun chunk => cut_at chunk p) chunks in
      cut_all new_chunks cuts'
  end.

(** [shapely.ops.split(path, MultiPoint(cuts))] for cut points that are
    vertices of the path. *)
Definition edges (path : LineString) (cuts : list Point)
    : result (list LineString) :=
  match path with
  | Line2D _ => Ok [path]
  | Line3D xyz =>
      let* chunks := cut_all [xyz] cuts in
      Ok (map Line3D chunks)
  end.

#[global] Instance containment : Containment :=
  {| point_within := within;
     line_within := path_within;
     line_intersects := path_meets |}.

#[global] Instance distance_to_ring : Distance :=
  {| point_line_distance := distance |}.

#[global] Instance segments : Segments :=
  {| split := edges; interpolate_normalized := along |}.

(** Where the segment from [a] to [b] crosses the line on which one
    coordinate is [c]: the point at the fraction [(c - a) / (b - a)] of the
    segment, when the two ends are strictly on either side of the line.
    [coordinate] reads that coordinate. *)
Definition crossing (coordinate : Point -> float) (c : float)
    (a b : Point) : list Point :=
  if (F64.ltb (coordinate a) c && F64.ltb c (coordinate b))
     || (F64.ltb (coordinate b) c && F64.ltb c (coordinate a))
  then
    let f := F64.div (F64.sub c (coordinate a))
                     (F64.sub (coordinate b) (coordinate a)) in
    [mkPoint (F64.add (px a) (F64.mul f (F64.sub (px b) (px a))))
             (F64.add (py a) (F64.mul f (F64.sub (py b) (py a))))
             (F64.add (pz a) (F64.mul f (F64.sub (pz b) (pz a))))]
  else [].

(** The points at which a segment crosses the four sides of a rectangle,
    north sides first. *)
Definition side_crossings (bx : box) (ab : Point * Point) : list Point :=
  let '(a, b) := ab in
  filter (fun p => F64.leb (e_min bx) (py p) && F64.leb (py p) (e_max bx))
         (crossing px (n_min bx) a b ++ crossing px (n_max bx) a b)
  ++
  filter (fun p => F64.leb (n_min bx) (px p) && F64.leb (px p) (n_max bx))
         (crossing py (e_min bx) a b ++ crossing py (e_max bx) a b).

(** A list of points without those standing where an earlier one stands. *)
Fixpoint distinct (ps : list Point) : list Point :=
  match ps with
  | [] => []
  | p :: ps' =>
      p :: filter (fun q => negb (same_place p q)) (distinct ps')
  end.

(** [path.intersection(ring)] for a path crossing the sides of a
    rectangular ring from one side to the other: an empty line when they do
    not meet, the point when they meet once, the points when they meet
    several times.  (A path running along a side, or touching the ring with
    a vertex, is outside this reference.) *)
Definition meeting (path : LineString) (ring : Ring) : Geom :=
  match bounds ring with
  | None => GLineString []
  | Some bx =>
      match distinct (flat_map (side_crossings bx) (pairs (vertices path)))
      with
      | [] => GLineString []
      | [p] => GPoint p
      | ps => GMultiPoint ps
      end
  end.

#[global] Instance ring_meeting : Intersect := {| intersection := meeting |}.

(** Linear referencing along a path of two vertices [a] and [b], measured in
    the north-east plane: the distance from [a] of the foot of a point on
    the segment, and the point at a given distance from [a] (its elevation
    interpolated).  Distances stop at the two ends; a path with another
    number of vertices has no answer here (NaN). *)
Definition flat_length (a b : Point) : float :=
  F64.sqrt (F64.add (F64.mul (F64.sub (px b) (px a)) (F64.sub (px b) (px a)))
                    (F64.mul (F64.sub (py b) (py a)) (F64.sub (py b) (py a)))).

Definition anchor (g : Geom) : option Point :=
  match g with
  | GPoint p => Some p
  | GLineString (p :: _) => Some p
  | GMultiPoint (p :: _) => Some p
  | _ => None
  end.

Definition foot (path : LineString) (g : Geom) : float :=
  match vertices path, anchor g with
  | [a; b], Some p =>
      let along_ab :=
        F64.add (F64.mul (F64.sub (px p) (px a)) (F64.sub (px b) (px a)))
                (F64.mul (F64.sub (py p) (py a)) (F64.sub (py b) (py a))) in
      clamp (F64.div along_ab (flat_length a b)) F64.zero (flat_length a b)
  | _, _ => F64.nan
  end.

Definition at_distance (path : LineString) (d : float) : Point :=
  match vertices path with
  | [a; b] => along path (F64.div d (flat_length a b))
  | _ => mkPoint F64.nan F64.nan F64.nan
  end.

#[global] Instance locate : Locate :=
  {| project := foot; interpolate := at_distance |}.

End Rect.

(* ===================================================================== *)
(** ** Scenario data *)
(* ===================================================================== *)

Definition pt (n e d : Z) : Point :=
  mkPoint (F64.of_Z n) (F64.of_Z e) (F64.of_Z d).

Definition ring_of (l : list (Z * Z)) : Ring :=
  map (fun v => (F64.of_Z (fst v), F64.of_Z (snd v))) l.

(** The exterior ring (0,0)-(0,10)-(10,10)-(10,0). *)
Definition square : Ring := ring_of [(0, 0); (0, 10); (10, 10); (10, 0)].

(** A square hole (2,2)-(2,6)-(6,6)-(6,2). *)
Definition square_hole : Ring := ring_of [(2, 2); (2, 6); (6, 6); (6, 2)].

(** The square hole (2,2)-(2,4)-(4,4)-(4,2) of scenario e. *)
Definition small_hole : Ring := ring_of [(2, 2); (2, 4); (4, 4); (4, 2)].

Definition solid_square : Polygon := mkPolygon square [].
Definition scenario_e_square : Polygon := mkPolygon square [small_hole].
Definition holed_square : Polygon := mkPolygon square [square_hole].

Definition flat_of (poly : Polygon) : ShapePrimitive.t :=
  ShapePrimitive.mk poly (DStr "obstacle") (DNum F64.micro).

(** A prism over [poly] with the given top and base. *)
Definition prism_of (poly : Polygon) (top bottom : float)
  : PrismaticShape.t :=
  PrismaticShape.mk (flat_of poly) bottom top.

(** The prism the constructor builds when no elevation is given. *)
Definition unbounded_prism (flat : ShapePrimitive.t) : PrismaticShape.t :=
  PrismaticShape.mk flat F64.inf F64.neg_inf.

(* ===================================================================== *)
(** ** Notions of the specification *)
(* ===================================================================== *)

(** "Whichever of the two has the smaller magnitude, the exterior vector on
    a tie": what the specification asks of the vector [r] chosen between
    [r_exterior] and [r_hole]. *)
Definition nearer_of (r_exterior r_hole r : Vec) : Prop :=
  (F64.ltb (norm r_hole) (norm r_exterior) = true -> r = r_hole)
  /\ (F64.ltb (norm r_exterior) (norm r_hole) = true -> r = r_exterior)
  /\ (F64.eqb (norm r_exterior) (norm r_hole) = true -> r = r_exterior)
  /\ norm r = F64.py_min (norm r_exterior) (norm r_hole)
  /\ (F64.is_nan (norm r_exterior) = false ->
      F64.is_nan (norm r_hole) = false ->
      F64.leb (norm r) (norm r_exterior) = true
      /\ F64.leb (norm r) (norm r_hole) = true).

(** The tuple a hole contributes to [hole_intersections]: a point alone,
    the first vertex of a curve, the parts of a multi-part geometry. *)
Definition hole_tuple (g : Geom) : list Geom :=
  match g with
  | GPoint _ => [g]
  | GLineString l => map GPoint (firstn 1 l)
  | GMultiPoint ps => map GPoint ps
  | GCollection gs => gs
  end.

(** A segment of constant elevation: two vertices whose down coordinates
    compare equal. *)
Definition level (s : LineString) : Prop :=
  exists a b, s = Line3D [a; b] /\ F64.eqb (pz a) (pz b) = true.

(* ===================================================================== *)
(** ** Notions for the rounding of binary64 results *)
(* ===================================================================== *)

Module Rounding.

Import F64.

(** By how many places [shr_fexp] shifts a mantissa to the right. *)
Definition places (m e : Z) : Z :=
  Z.max 0 (fexp prec emax (Zdigits2 m + e) - e).

(** What [binary_round_aux] makes of a rounded mantissa. *)
Definition finish (m e : Z) : float :=
  match m / 2 ^ places m e with
  | Z0 => S754_zero false
  | Z.pos p =>
      if e + places m e <=? emax - prec
      then S754_finite false p (e + places m e)
      else S754_infinity false
  | Z.neg _ => S754_nan
  end.

(** A mantissa that needs no further shift at its exponent: at most 53
    digits, an exponent not below the smallest one. *)
Definition settled (m : positive) (e : Z) : Prop :=
  fexp prec emax (Z.pos (digits2_pos m) + e) <= e.

(** The value of a positive number in units of the smallest one. *)
Definition units (m : positive) (e : Z) : Z := Z.pos m * 2 ^ (e + 1074).

(** The non-negative results of rounding. *)
Definition positive_result (x : float) : Prop :=
  x = S754_zero false \/ x = S754_infinity false \/ x = S754_nan
  \/ exists m e, x = S754_finite false m e /\ settled m e /\ e <= 971.

(** The square root of a settled number [m * 2^e]: the exponent of the
    result before rounding, the integer whose root is taken, and that root
    rounded to the nearest integer. *)
Definition root_exponent (m : positive) (e : Z) : Z :=
  Z.div2 (Z.pos (digits2_pos m) + e + 1) - 53.

Definition radicand (m : positive) (e : Z) : Z :=
  Z.pos m * 2 ^ (e - 2 * root_exponent m e).

Definition rounded_root (m : positive) (e : Z) : Z :=
  let q := Z.sqrt (radicand m e) in
  if q <? radicand m e - q * q then q + 1 else q.

End Rounding.

(* ===================================================================== *)
(** ** Facts about binary64 comparison and arithmetic *)
(* ===================================================================== *)

Module F64Facts.

Import F64.

(** *** Order *)

Lemma compare_key (x y : float) :
  SFcompare x y =
  match key x, key y with
  | Some a, Some b => Some (lex_compare a b)
  | _, _ => None
  end.
Proof.
  destruct x as [[]|[]| |[] m1 e1], y as [[]|[]| |[] m2 e2];
    try reflexivity.
  unfold lex_compare; cbn -[Z.compare].
  rewrite Z.compare_opp, (Z.compare_antisym e1 e2).
  destruct (e1 ?= e2); reflexivity.
Qed.

Lemma lex_compare_Lt (a b : Z * Z * Z) :
  lex_compare a b = Lt <-> lex_lt a b.
Proof.
  destruct a as [[a1 a2] a3], b as [[b1 b2] b3].
  unfold lex_compare, lex_lt; cbn [fst snd].
  destruct (Z.compare_spec a1 b1); [ | intuition lia | intuition (try discriminate; lia) ].
  destruct (Z.compare_spec a2 b2); [ | intuition lia | intuition (try discriminate; lia) ].
  destruct (Z.compare_spec a3 b3); intuition (try discriminate; lia).
Qed.

Lemma lex_compare_Eq (a b : Z * Z * Z) :
  lex_compare a b = Eq <-> a = b.
Proof.
  destruct a as [[a1 a2] a3], b as [[b1 b2] b3].
  unfold lex_compare; cbn [fst snd].
  destruct (Z.compare_spec a1 b1);
    [ | split; [discriminate | intros E; inversion E; lia]
      | split; [discriminate | intros E; inversion E; lia] ].
  destruct (Z.compare_spec a2 b2);
    [ | split; [discriminate | intros E; inversion E; lia]
      | split; [discriminate | intros E; inversion E; lia] ].
  destruct (Z.compare_spec a3 b3);
    [ subst; tauto | split; [discriminate | intros E; inversion E; lia]
      | split; [discriminate | intros E; inversion E; lia] ].
Qed.

Lemma ltb_iff (x y : float) :
  ltb x y = true <->
  exists a b, key x = Some a /\ key y = Some b /\ lex_lt a b.
Proof.
  unfold ltb, SFltb. rewrite compare_key.
  destruct (key x) as [a|], (key y) as [b|].
  - split.
    + intros H. exists a, b. repeat split. apply lex_compare_Lt.
      destruct (lex_compare a b); congruence.
    + intros (a' & b' & Ea & Eb & H). inversion Ea; inversion Eb; subst.
      apply lex_compare_Lt in H. now rewrite H.
  - split; [discriminate | intros (a' & b' & _ & E & _); discriminate].
  - split; [discriminate | intros (a' & b' & E & _ & _); discriminate].
  - split; [discriminate | intros (a' & b' & E & _ & _); discriminate].
Qed.

Lemma leb_iff (x y : float) :
  leb x y = true <->
  exists a b, key x = Some a /\ key y = Some b /\ (lex_lt a b \/ a = b).
Proof.
  unfold leb, SFleb. rewrite compare_key.
  destruct (key x) as [a|], (key y) as [b|].
  - split.
    + intros H. exists a, b. repeat split.
      rewrite <- (lex_compare_Lt a b), <- (lex_compare_Eq a b).
      destruct (lex_compare a b); auto; discriminate.
    + intros (a' & b' & Ea & Eb & H). inversion Ea; inversion Eb; subst.
      rewrite <- (lex_compare_Lt a' b'), <- (lex_compare_Eq a' b') in H.
      destruct H as [H|H]; now rewrite H.
  - split; [discriminate | intros (a' & b' & _ & E & _); discriminate].
  - split; [discriminate | intros (a' & b' & E & _ & _); discriminate].
  - split; [discriminate | intros (a' & b' & E & _ & _); discriminate].
Qed.

Lemma eqb_iff (x y : float) :
  eqb x y = true <-> exists a, key x = Some a /\ key y = Some a.
Proof.
  unfold eqb, SFeqb. rewrite compare_key.
  destruct (key x) as [a|], (key y) as [b|].
  - split.
    + intros H. exists a. split; auto. f_equal. symmetry.
      apply lex_compare_Eq. destruct (lex_compare a b); congruence.
    + intros (a' & Ea & Eb). inversion Ea; inversion Eb; subst.
      now rewrite (proj2 (lex_compare_Eq a' a') eq_refl).
  - split; [discriminate | intros (a' & _ & E); discriminate].
  - split; [discriminate | intros (a' & E & _); discriminate].
  - split; [discriminate | intros (a' & E & _); discriminate].
Qed.

Lemma key_not_nan (x : float) : is_nan x = false <-> exists a, key x = Some a.
Proof.
  destruct x as [[]|[]| |[] m e]; cbn; split; eauto; try discriminate.
  intros (a & E); discriminate.
Qed.

(** Destructs the key facts in the context into integer arithmetic. *)
Ltac keys :=
  repeat match goal with
    | H : ltb _ _ = true |- _ => apply ltb_iff in H; destruct H as (? & ? & ? & ? & H)
    | H : leb _ _ = true |- _ => apply leb_iff in H; destruct H as (? & ? & ? & ? & H)
    | H : eqb _ _ = true |- _ => apply eqb_iff in H; destruct H as (? & ? & H)
    | H : is_nan _ = false |- _ => apply key_not_nan in H; destruct H as (? & H)
    end;
  repeat match goal with
    | H1 : key ?x = Some ?a, H2 : key ?x = Some ?b |- _ =>
        rewrite H1 in H2; inversion H2; clear H2; subst
    end.

Ltac lex :=
  unfold lex_lt in *;
  repeat match goal with p : (Z * Z * Z)%type |- _ => destruct p as [[? ?] ?] end;
  cbn [fst snd] in *;
  repeat match goal with H : (_, _) = (_, _) |- _ => inversion H; clear H; subst end;
  try lia.

Lemma lex_lt_irrefl a : ~ lex_lt a a.
Proof. intros H. lex. Qed.

Lemma lex_lt_trans a b c : lex_lt a b -> lex_lt b c -> lex_lt a c.
Proof. intros H1 H2. lex. Qed.

Lemma lex_lt_asym a b : lex_lt a b -> ~ lex_lt b a.
Proof. intros H1 H2. lex. Qed.

Lemma lex_total a b : lex_lt a b \/ a = b \/ lex_lt b a.
Proof.
  destruct a as [[a1 a2] a3], b as [[b1 b2] b3].
  unfold lex_lt; cbn [fst snd].
  destruct (Z.lt_trichotomy a1 b1) as [?|[?|?]]; [lia| |lia].
  destruct (Z.lt_trichotomy a2 b2) as [?|[?|?]]; [lia| |lia].
  destruct (Z.lt_trichotomy a3 b3) as [?|[?|?]]; [lia| |lia].
  subst. auto.
Qed.

Lemma not_true_false (b : bool) : ~ b = true -> b = false.
Proof. destruct b; congruence. Qed.

Lemma ltb_irrefl (x : float) : ltb x x = false.
Proof.
  apply not_true_false. intros H. keys. eapply lex_lt_irrefl; eauto.
Qed.

Lemma ltb_asym (x y : float) : ltb x y = true -> ltb y x = false.
Proof.
  intros H. apply not_true_false. intros H'. keys.
  eapply lex_lt_asym; eauto.
Qed.

Lemma ltb_trans (x y z : float) :
  ltb x y = true -> ltb y z = true -> ltb x z = true.
Proof.
  intros H1 H2. keys. apply ltb_iff. do 2 eexists. repeat split; eauto.
  eapply lex_lt_trans; eauto.
Qed.

Lemma ltb_leb_trans (x y z : float) :
  ltb x y = true -> leb y z = true -> ltb x z = true.
Proof.
  intros H1 H2. keys. apply ltb_iff. do 2 eexists. repeat split; eauto.
  destruct H2 as [H2|H2]; [eapply lex_lt_trans; eauto | congruence].
Qed.

Lemma leb_ltb_trans (x y z : float) :
  leb x y = true -> ltb y z = true -> ltb x z = true.
Proof.
  intros H1 H2. keys. apply ltb_iff. do 2 eexists. repeat split; eauto.
  destruct H1 as [H1|H1]; [eapply lex_lt_trans; eauto | congruence].
Qed.

Lemma eqb_not_ltb (x y : float) :
  eqb x y = true -> ltb x y = false /\ ltb y x = false.
Proof.
  intros H. split; apply not_true_false; intros H'; keys;
    eapply lex_lt_irrefl; eauto.
Qed.

Lemma ltb_leb (x y : float) : ltb x y = true -> leb x y = true.
Proof.
  intros H. keys. apply leb_iff. do 2 eexists. repeat split; eauto.
Qed.

Lemma leb_not_ltb (x y : float) : leb x y = true -> ltb y x = false.
Proof.
  intros H. apply not_true_false. intros H'. keys.
  destruct H as [H|H].
  - eapply lex_lt_asym; eauto.
  - subst. eapply lex_lt_irrefl; eauto.
Qed.

(** Two numbers are ordered one way or the other. *)
Lemma not_ltb_leb (x y : float) :
  is_nan x = false -> is_nan y = false ->
  ltb x y = false -> leb y x = true.
Proof.
  intros Hx Hy H. keys. apply leb_iff. do 2 eexists. repeat split; eauto.
  match goal with
  | Hx : key x = Some ?a, Hy : key y = Some ?b |- _ =>
      destruct (lex_total b a) as [L|[L|L]]; auto
  end.
  exfalso. assert (ltb x y = true); [|congruence].
  apply ltb_iff. do 2 eexists. repeat split; eauto.
Qed.

Lemma leb_refl (x : float) : is_nan x = false -> leb x x = true.
Proof.
  intros Hx. keys. apply leb_iff. do 2 eexists. repeat split; eauto.
Qed.

Lemma ltb_not_nan (x y : float) :
  ltb x y = true -> is_nan x = false /\ is_nan y = false.
Proof.
  intros H. keys. split; apply key_not_nan; eauto.
Qed.

Lemma leb_not_nan (x y : float) :
  leb x y = true -> is_nan x = false /\ is_nan y = false.
Proof.
  intros H. keys. split; apply key_not_nan; eauto.
Qed.

(** *** Arithmetic *)

Lemma sub_self (x : float) : is_finite x = true -> sub x x = zero.
Proof.
  destruct x as [[]|[]| |s m e]; try discriminate; try reflexivity.
  intros _. unfold sub, SFsub. cbv zeta.
  rewrite Z.min_id. unfold shl_align. rewrite !Z.sub_diag. reflexivity.
Qed.

(** Numbers that compare equal are the same float, or two zeros. *)
Lemma eqb_cases (x y : float) :
  eqb x y = true ->
  (x = y /\ is_nan x = false) \/ (is_zero x = true /\ is_zero y = true).
Proof.
  intros H. apply eqb_iff in H. destruct H as (a & Ex & Ey).
  destruct x as [[]|[]| |[] m1 e1]; destruct y as [[]|[]| |[] m2 e2];
    cbn in Ex, Ey; auto; try discriminate;
    rewrite <- Ex in Ey; inversion Ey; clear Ey;
    left; split; auto; f_equal; lia.
Qed.

(** The elevation span of a segment whose ends compare equal. *)
Lemma sub_equal (x y : float) :
  eqb x y = true ->
  (is_finite x = true -> is_zero (sub y x) = true)
  /\ (is_zero (sub y x) = true \/ is_nan (sub y x) = true).
Proof.
  intros H. destruct (eqb_cases _ _ H) as [[E N]|[Zx Zy]].
  - subst y. split.
    + intros F. now rewrite sub_self.
    + destruct x as [[]|[]| |s m e]; try discriminate; auto.
      left. now rewrite sub_self.
  - destruct x as [[]| | |]; try discriminate;
      destruct y as [[]| | |]; try discriminate; cbn; auto.
Qed.

(** Dividing by a zero or by a NaN never gives a finite number. *)
Lemma div_by_zero (x d : float) :
  is_zero d = true \/ is_nan d = true -> is_finite (div x d) = false.
Proof.
  intros [H|H]; destruct d as [[]|[]| |]; try discriminate;
    destruct x as [[]|[]| |[]]; reflexivity.
Qed.

(** A fraction that is not finite fails [f > 0.0 and f < 1.0]. *)
Lemma not_finite_outside (f : float) :
  is_finite f = false -> gtb f zero && ltb f one = false.
Proof.
  destruct f as [|[]| |]; try discriminate; reflexivity.
Qed.

Lemma neg_inf_ltb (z : float) : is_finite z = true -> ltb neg_inf z = true.
Proof. destruct z as [[]|[]| |[]]; try discriminate; reflexivity. Qed.

Lemma ltb_inf (z : float) : is_finite z = true -> ltb z inf = true.
Proof. destruct z as [[]|[]| |[]]; try discriminate; reflexivity. Qed.

(** With no bounds, clipping leaves a finite number alone. *)
Lemma clip_unbounded (z : float) :
  is_finite z = true -> clip z neg_inf inf = z.
Proof.
  destruct z as [[]|[]| |[]]; try discriminate; reflexivity.
Qed.

Lemma eqb_sym (x y : float) : eqb x y = true -> eqb y x = true.
Proof.
  intros H. apply eqb_iff in H. destruct H as (a & Ex & Ey).
  apply eqb_iff. eauto.
Qed.

Lemma eqb_trans (x y z : float) :
  eqb x y = true -> eqb y z = true -> eqb x z = true.
Proof.
  intros H1 H2. apply eqb_iff in H1, H2.
  destruct H1 as (a & Ex & Ey), H2 as (b & Ey' & Ez).
  rewrite Ey in Ey'. inversion Ey'; subst. apply eqb_iff. eauto.
Qed.

Lemma eqb_refl (x : float) : is_nan x = false -> eqb x x = true.
Proof.
  intros H. apply key_not_nan in H. destruct H as (a & E).
  apply eqb_iff. eauto.
Qed.

Lemma leb_antisym (x y : float) :
  leb x y = true -> ltb x y = false -> eqb x y = true.
Proof.
  intros H N. apply leb_iff in H. destruct H as (a & b & Ex & Ey & [L|E]).
  - assert (ltb x y = true) by (apply ltb_iff; eauto). congruence.
  - subst. apply eqb_iff. eauto.
Qed.

Lemma leb_eqb_trans (x y z : float) :
  leb x y = true -> eqb y z = true -> leb x z = true.
Proof.
  intros H1 H2. apply leb_iff in H1. apply eqb_iff in H2.
  destruct H1 as (a & b & Ex & Ey & H), H2 as (c & Ey' & Ez).
  rewrite Ey in Ey'. inversion Ey'; subst. apply leb_iff. eauto.
Qed.

Lemma eqb_ltb_trans (x y z : float) :
  eqb x y = true -> ltb y z = true -> ltb x z = true.
Proof.
  intros H1 H2. apply eqb_iff in H1. apply ltb_iff in H2.
  destruct H1 as (a & Ex & Ey), H2 as (b & c & Ey' & Ez & H).
  rewrite Ey in Ey'. inversion Ey'; subst. apply ltb_iff. eauto.
Qed.

Lemma finite_not_nan (x : float) : is_finite x = true -> is_nan x = false.
Proof. destruct x; auto; discriminate. Qed.

(** *** Clipping *)

(** Inside the interval the clipped value compares equal to the
    argument. *)
Lemma clip_within (z lo hi : float) :
  leb lo z = true -> leb z hi = true -> eqb z (clip z lo hi) = true.
Proof.
  intros Hlo Hhi.
  destruct (leb_not_nan _ _ Hlo) as [Nlo Nz].
  destruct (leb_not_nan _ _ Hhi) as [_ Nhi].
  assert (Hmax : eqb z (npy_max z lo) = true).
  { unfold npy_max, gtb. rewrite Nz. cbn [orb].
    destruct (SFltb lo z) eqn:L.
    - now apply eqb_refl.
    - apply eqb_sym. now apply leb_antisym. }
  unfold clip, npy_min.
  destruct (is_nan (npy_max z lo) || ltb (npy_max z lo) hi) eqn:T; auto.
  apply orb_false_iff in T. destruct T as [_ T].
  eapply eqb_trans; [exact Hmax|].
  apply leb_antisym; auto.
  apply eqb_sym in Hmax.
  apply leb_iff in Hhi. apply eqb_iff in Hmax.
  destruct Hhi as (a & b & Ez & Eh & H), Hmax as (c & Em & Ez').
  rewrite Ez in Ez'. inversion Ez'; subst. apply leb_iff. eauto.
Qed.

Lemma clip_inside_zero (z lo hi : float) :
  is_finite z = true -> leb lo z = true -> leb z hi = true ->
  is_zero (sub (clip z lo hi) z) = true.
Proof.
  intros F Hlo Hhi.
  now apply (proj1 (sub_equal z (clip z lo hi) (clip_within z lo hi Hlo Hhi))).
Qed.

(** Numbers that compare equal give the same difference to a number that
    is not a zero. *)
Lemma sub_eqb_l (a b z : float) :
  eqb a b = true -> is_zero z = false -> sub a z = sub b z.
Proof.
  intros H Z. destruct (eqb_cases _ _ H) as [[E _]|[Za Zb]].
  - now subst.
  - destruct a as [[]| | |]; try discriminate;
      destruct b as [[]| | |]; try discriminate;
      destruct z as [[]|[]| |[]]; try discriminate; reflexivity.
Qed.

Lemma ltb_zero_not_zero (z lo : float) :
  ltb z lo = true -> eqb lo lo = true -> is_zero lo = true ->
  is_zero z = false.
Proof.
  intros H _ Z. destruct lo as [[]| | |]; try discriminate;
    destruct z as [[]|[]| |[]]; try discriminate; reflexivity.
Qed.

Lemma clip_below (z lo hi : float) :
  ltb z lo = true -> leb lo hi = true ->
  sub (clip z lo hi) z = sub lo z.
Proof.
  intros Hz Hord.
  destruct (ltb_not_nan _ _ Hz) as [Nz Nlo].
  unfold clip, npy_max, gtb. rewrite Nz. cbn [orb].
  change (SFltb lo z) with (ltb lo z). rewrite (ltb_asym _ _ Hz).
  unfold npy_min. rewrite Nlo. cbn [orb].
  destruct (ltb lo hi) eqn:L; auto.
  pose proof (leb_antisym _ _ Hord L) as E.
  destruct (eqb_cases _ _ E) as [[E' _]|[Zlo Zhi]].
  - now subst.
  - apply sub_eqb_l; [now apply eqb_sym|].
    eapply ltb_zero_not_zero; eauto. now apply eqb_refl.
Qed.

Lemma clip_above (z lo hi : float) :
  ltb hi z = true -> leb lo hi = true ->
  sub (clip z lo hi) z = sub hi z.
Proof.
  intros Hz Hord.
  destruct (ltb_not_nan _ _ Hz) as [Nhi Nz].
  unfold clip, npy_max, gtb. rewrite Nz. cbn [orb].
  change (SFltb lo z) with (ltb lo z).
  rewrite (leb_ltb_trans _ _ _ Hord Hz).
  unfold npy_min. rewrite Nz. cbn [orb].
  now rewrite (ltb_asym _ _ Hz).
Qed.

Lemma clip_not_nan (z lo hi : float) :
  is_nan z = false -> is_nan lo = false -> is_nan hi = false ->
  is_nan (clip z lo hi) = false.
Proof.
  intros Nz Nlo Nhi. unfold clip, npy_min, npy_max.
  repeat match goal with |- context [if ?c then _ else _] => destruct c end;
    auto.
Qed.

(** *** Rounding never makes a NaN *)

Lemma shr_1_nonneg (mrs : shr_record) :
  0 <= shr_m mrs -> 0 <= shr_m (shr_1 mrs).
Proof.
  destruct mrs as [m r s]. destruct m as [|[p|p|]|[p|p|]]; cbn; lia.
Qed.

Lemma iter_pos_invariant {A : Type} (P : A -> Prop) (f : A -> A) :
  (forall a, P a -> P (f a)) ->
  forall (p : positive) (a : A), P a -> P (iter_pos f p a).
Proof.
  intros Hf. induction p as [p IH|p IH|]; intros a Ha; cbn; auto.
Qed.

Lemma shr_nonneg (mrs : shr_record) (e n : Z) :
  0 <= shr_m mrs -> 0 <= shr_m (fst (shr mrs e n)).
Proof.
  intros H. destruct n as [|p|p]; cbn; auto.
  apply (iter_pos_invariant (fun r => 0 <= shr_m r)); auto.
  apply shr_1_nonneg.
Qed.

Lemma shr_fexp_nonneg (m e : Z) (l : location) :
  0 <= m -> 0 <= shr_m (fst (shr_fexp prec emax m e l)).
Proof.
  intros H. unfold shr_fexp. apply shr_nonneg.
  destruct l as [|[]]; exact H.
Qed.

Lemma round_nearest_even_nonneg (m : Z) (l : location) :
  0 <= m -> 0 <= round_nearest_even m l.
Proof.
  intros H. destruct l as [|[]]; cbn; auto; try lia.
  destruct (Z.even m); lia.
Qed.

(** What rounding a non-negative mantissa can give: a zero, a finite
    number or an infinity, each of the requested sign. *)
Lemma binary_round_aux_rounded (s : bool) (m e : Z) (l : location) :
  0 <= m -> rounded s (binary_round_aux prec emax s m e l).
Proof.
  intros H. unfold binary_round_aux.
  pose proof (shr_fexp_nonneg m e l H) as H1.
  destruct (shr_fexp prec emax m e l) as [mrs' e'] eqn:E1. cbn [fst] in H1.
  pose proof (shr_fexp_nonneg _ e' loc_Exact
                (round_nearest_even_nonneg _ (loc_of_shr_record mrs') H1))
    as H2.
  destruct (shr_fexp prec emax
              (round_nearest_even (shr_m mrs') (loc_of_shr_record mrs'))
              e' loc_Exact) as [mrs'' e''] eqn:E2.
  cbn [fst] in H2. unfold rounded.
  destruct (shr_m mrs'') as [|p|p]; [auto| |lia].
  destruct (e'' <=? emax - prec); eauto.
Qed.

Lemma binary_round_rounded (s : bool) (m : positive) (e : Z) :
  rounded s (binary_round prec emax s m e).
Proof.
  unfold binary_round.
  destruct (shl_align m e (fexp prec emax (Z.pos (digits2_pos m) + e)))
    as [mz ez].
  apply binary_round_aux_rounded. lia.
Qed.

Lemma rounded_not_nan (s : bool) (x : float) :
  rounded s x -> is_nan x = false.
Proof. intros [->|[->|(m & e & ->)]]; reflexivity. Qed.

(** A square is a number as soon as its argument is, and never
    [-inf]. *)
Lemma mul_self (x : float) :
  is_nan x = false -> add inf (mul x x) = inf.
Proof.
  intros N. destruct x as [s|s| |s m e]; try discriminate.
  - destruct s; reflexivity.
  - destruct s; reflexivity.
  - unfold mul, SFmul.
    destruct (binary_round_aux_rounded (xorb s s) (Z.pos (m * m)) (e + e)
                loc_Exact) as [E|[E|(m' & e' & E)]]; [lia| | |];
      rewrite E; rewrite xorb_nilpotent; reflexivity.
Qed.

(** A difference with a finite subtrahend is a number as soon as the
    minuend is. *)
Lemma sub_not_nan (c z : float) :
  is_nan c = false -> is_finite z = true -> is_nan (sub c z) = false.
Proof.
  intros N F.
  destruct c as [sc|sc| |sc mc ec]; try discriminate;
    destruct z as [sz|sz| |sz mz ez]; try discriminate;
    try reflexivity.
  - destruct sc, sz; reflexivity.
  - unfold sub, SFsub. cbv zeta.
    match goal with
    | |- is_nan (binary_normalize _ _ ?m ?e _) = false =>
        destruct m as [|p|p]; cbn [binary_normalize]; auto;
        eapply rounded_not_nan, binary_round_rounded
    end.
Qed.

Lemma norm_inf_lateral (dz : float) :
  is_nan dz = false -> norm (mkVec inf inf dz) = inf.
Proof.
  intros N. unfold norm; cbn [vn ve vd].
  change (add (mul inf inf) (mul inf inf)) with inf.
  now rewrite (mul_self dz N).
Qed.

End F64Facts.

(* ===================================================================== *)
(** ** Further facts about binary64 *)
(* ===================================================================== *)

Module F64More.

Import F64 F64Facts.

Lemma ltb_nan_l (x y : float) : is_nan x = true -> ltb x y = false.
Proof. destruct x; try discriminate. reflexivity. Qed.

Lemma ltb_nan_r (x y : float) : is_nan y = true -> ltb x y = false.
Proof. destruct y; try discriminate. now destruct x. Qed.

(** Nothing is above [inf], nothing below [-inf]. *)
Lemma inf_ltb (x : float) : ltb inf x = false.
Proof. now destruct x as [[]|[]| |[]]. Qed.

Lemma ltb_neg_inf (x : float) : ltb x neg_inf = false.
Proof. now destruct x as [[]|[]| |[]]. Qed.

Lemma leb_inf (x : float) : is_nan x = false -> leb x inf = true.
Proof. destruct x as [[]|[]| |[]]; try discriminate; reflexivity. Qed.

Lemma neg_inf_leb (x : float) : is_nan x = false -> leb neg_inf x = true.
Proof. destruct x as [[]|[]| |[]]; try discriminate; reflexivity. Qed.

(** What rounding can give, whatever the mantissa: a value of the requested
    sign, or a NaN. *)
Lemma binary_round_aux_sign (s : bool) (m e : Z) (l : location) :
  rounded s (binary_round_aux prec emax s m e l)
  \/ binary_round_aux prec emax s m e l = S754_nan.
Proof.
  unfold binary_round_aux, rounded.
  destruct (shr_fexp prec emax m e l) as [mrs' e'].
  destruct (shr_fexp prec emax _ e' loc_Exact) as [mrs'' e''].
  destruct (shr_m mrs'') as [|p|p]; auto.
  destruct (e'' <=? emax - prec); eauto 6.
Qed.

(** A square root is never below a zero. *)
Lemma sqrt_not_negative (x y : float) :
  is_zero y = true -> ltb (sqrt x) y = false.
Proof.
  intros Zy. destruct y as [sy| | |]; try discriminate.
  destruct x as [[]|[]| |[] m e]; try reflexivity.
  unfold sqrt, SFsqrt.
  destruct (SFsqrt_core_binary prec emax (Z.pos m) e) as [[mz ez] lz].
  destruct (binary_round_aux_sign false mz ez lz)
    as [[->|[->|(m' & e' & ->)]]| ->]; reflexivity.
Qed.

(** A sum with a finite term is a number as soon as the other term is. *)
Lemma add_not_nan (c z : float) :
  is_nan c = false -> is_finite z = true -> is_nan (add c z) = false.
Proof.
  intros N F.
  destruct c as [sc|sc| |sc mc ec]; try discriminate;
    destruct z as [sz|sz| |sz mz ez]; try discriminate;
    try reflexivity.
  - destruct sc, sz; reflexivity.
  - unfold add, SFadd. cbv zeta.
    match goal with
    | |- is_nan (binary_normalize _ _ ?m ?e _) = false =>
        destruct m as [|p|p]; cbn [binary_normalize]; auto;
        eapply rounded_not_nan, binary_round_rounded
    end.
Qed.

(** An infinite numerator never gives a finite fraction. *)
Lemma div_infinite (s : bool) (z span : float) :
  is_finite (div (sub (S754_infinity s) z) span) = false.
Proof.
  destruct z as [[]|[]| |[]], s; cbn;
    destruct span as [[]|[]| |[]]; reflexivity.
Qed.

(** With the bounds in the wrong order the clipped value is the upper
    argument. *)
Lemma clip_inverted (z lo hi : float) :
  is_nan z = false -> ltb hi lo = true -> clip z lo hi = hi.
Proof.
  intros Nz H. destruct (ltb_not_nan _ _ H) as [Nhi Nlo].
  unfold clip, npy_min.
  assert (L : ltb (npy_max z lo) hi = false).
  { unfold npy_max, gtb. rewrite Nz. cbn [orb].
    change (SFltb lo z) with (ltb lo z).
    destruct (ltb lo z) eqn:E.
    - apply not_true_false. intros L.
      pose proof (ltb_trans _ _ _ H E) as T.
      apply ltb_asym in T. congruence.
    - now apply ltb_asym. }
  assert (N : is_nan (npy_max z lo) = false).
  { unfold npy_max. now destruct (_ || _). }
  now rewrite N, L.
Qed.

Lemma clip_nan (lo hi : float) : clip nan lo hi = nan.
Proof. reflexivity. Qed.

(** The norm of a vector with infinite north and east components is
    infinite or a NaN. *)
Lemma norm_inf_or_nan (dz : float) :
  norm (mkVec inf inf dz) = inf \/ is_nan (norm (mkVec inf inf dz)) = true.
Proof.
  destruct (is_nan dz) eqn:N.
  - right. now destruct dz.
  - left. now apply norm_inf_lateral.
Qed.

Lemma norm_zero_down (dz : float) :
  is_zero dz = true -> norm (mkVec zero zero dz) = zero.
Proof. destruct dz as [[]| | |]; try discriminate; reflexivity. Qed.

Lemma norm_not_negative (v : Vec) (y : float) :
  is_zero y = true -> ltb (norm v) y = false.
Proof. intros Zy. unfold norm. now apply sqrt_not_negative. Qed.

Lemma leb_trans (x y z : float) :
  leb x y = true -> leb y z = true -> leb x z = true.
Proof.
  intros H1 H2. apply leb_iff in H1, H2.
  destruct H1 as (a & b & Ex & Ey & H1), H2 as (b' & c & Ey' & Ez & H2).
  rewrite Ey in Ey'. inversion Ey'; subst b'. apply leb_iff.
  exists a, c. repeat split; auto.
  destruct H1 as [H1| ->], H2 as [H2| ->]; auto.
  left. eapply lex_lt_trans; eauto.
Qed.

End F64More.

(* ===================================================================== *)
(** ** Rounding: sums and square roots of positive numbers *)
(* ===================================================================== *)

Module F64Round.

Import F64 F64Facts Rounding.

(** *** Exponents and digits *)

Lemma fexp_eq (k : Z) : fexp prec emax k = Z.max (k - 53) (-1074).
Proof. reflexivity. Qed.

Lemma digits_bounds (m : positive) :
  2 ^ (Z.pos (digits2_pos m) - 1) <= Z.pos m < 2 ^ Z.pos (digits2_pos m).
Proof.
  induction m as [p IH|p IH|]; cbn [digits2_pos].
  - rewrite Pos2Z.inj_succ, Z.pow_succ_r by lia.
    replace (Z.succ (Z.pos (digits2_pos p)) - 1)
      with (Z.succ (Z.pos (digits2_pos p) - 1)) by lia.
    rewrite Z.pow_succ_r by lia. lia.
  - rewrite Pos2Z.inj_succ, Z.pow_succ_r by lia.
    replace (Z.succ (Z.pos (digits2_pos p)) - 1)
      with (Z.succ (Z.pos (digits2_pos p) - 1)) by lia.
    rewrite Z.pow_succ_r by lia. lia.
  - cbn. lia.
Qed.

Lemma digits_unique (m : positive) (d : Z) :
  2 ^ (d - 1) <= Z.pos m < 2 ^ d -> Z.pos (digits2_pos m) = d.
Proof.
  intros [Hlo Hhi]. pose proof (digits_bounds m) as [Glo Ghi].
  assert (0 < d).
  { destruct (Z_lt_le_dec 0 d) as [|N]; auto.
    assert (2 ^ d <= 1).
    { destruct (Z.eq_dec d 0) as [->|]; [cbn; lia|].
      rewrite Z.pow_neg_r by lia. lia. }
    lia. }
  destruct (Z_lt_le_dec (Z.pos (digits2_pos m)) d) as [L|L].
  - assert (2 ^ Z.pos (digits2_pos m) <= 2 ^ (d - 1))
      by (apply Z.pow_le_mono_r; lia).
    lia.
  - destruct (Z.eq_dec (Z.pos (digits2_pos m)) d) as [|N]; auto.
    assert (2 ^ d <= 2 ^ (Z.pos (digits2_pos m) - 1))
      by (apply Z.pow_le_mono_r; lia).
    lia.
Qed.

Lemma Zdigits2_pos (m : positive) : Zdigits2 (Z.pos m) = Z.pos (digits2_pos m).
Proof. reflexivity. Qed.

(** The digits of a quotient by a power of two that leaves something. *)
Lemma digits_div (m : positive) (n : Z) :
  0 <= n < Z.pos (digits2_pos m) ->
  exists q : positive,
    Z.pos m / 2 ^ n = Z.pos q
    /\ Z.pos (digits2_pos q) = Z.pos (digits2_pos m) - n.
Proof.
  intros Hn. pose proof (digits_bounds m) as [Glo Ghi].
  set (d := Z.pos (digits2_pos m)) in *.
  assert (P : 0 < 2 ^ n) by (apply Z.pow_pos_nonneg; lia).
  assert (Hlo : 2 ^ (d - 1 - n) <= Z.pos m / 2 ^ n).
  { apply Z.div_le_lower_bound; [lia|].
    rewrite <- Z.pow_add_r by lia.
    replace (n + (d - 1 - n)) with (d - 1) by lia. exact Glo. }
  assert (Hhi : Z.pos m / 2 ^ n < 2 ^ (d - n)).
  { apply Z.div_lt_upper_bound; [lia|].
    rewrite <- Z.pow_add_r by lia.
    replace (n + (d - n)) with d by lia. exact Ghi. }
  assert (Q : 0 < Z.pos m / 2 ^ n).
  { assert (0 < 2 ^ (d - 1 - n)) by (apply Z.pow_pos_nonneg; lia). lia. }
  destruct (Z.pos m / 2 ^ n) as [|q|q] eqn:E; try lia.
  exists q. split; [reflexivity|].
  apply digits_unique.
  replace (d - n - 1) with (d - 1 - n) by lia. lia.
Qed.

(** *** Shifting right *)

Lemma shr_1_m (r : shr_record) :
  0 <= shr_m r -> shr_m (shr_1 r) = shr_m r / 2.
Proof.
  destruct r as [m b s]. cbn [shr_m]. intros H.
  destruct m as [|[p|p|]|p]; cbn [shr_1 shr_m]; try lia.
  - reflexivity.
  - apply Z.div_unique with 1; lia.
  - apply Z.div_unique with 0; lia.
  - reflexivity.
Qed.

Lemma iter_shr_m (p : positive) :
  forall r : shr_record,
    0 <= shr_m r ->
    shr_m (iter_pos shr_1 p r) = shr_m r / 2 ^ Z.pos p.
Proof.
  assert (N : forall r, 0 <= shr_m r -> 0 <= shr_m (shr_1 r)).
  { intros r H. rewrite shr_1_m by exact H. apply Z.div_pos; lia. }
  assert (NI : forall q r, 0 <= shr_m r -> 0 <= shr_m (iter_pos shr_1 q r)).
  { intros q r H.
    apply (iter_pos_invariant (fun r => 0 <= shr_m r)); auto. }
  assert (P : forall q, 0 < 2 ^ Z.pos q)
    by (intros q; apply Z.pow_pos_nonneg; lia).
  induction p as [p IH|p IH|]; intros r H; cbn [iter_pos].
  - rewrite IH by (apply NI; auto). rewrite IH by auto.
    rewrite shr_1_m by exact H.
    pose proof (P p).
    rewrite !Z.div_div by lia.
    f_equal.
    replace (Z.pos p~1) with (Z.pos p + Z.pos p + 1) by lia.
    rewrite !Z.pow_add_r by lia. change (2 ^ 1) with 2. lia.
  - rewrite IH by (apply NI; auto). rewrite IH by auto.
    pose proof (P p).
    rewrite !Z.div_div by lia.
    f_equal.
    replace (Z.pos p~0) with (Z.pos p + Z.pos p) by lia.
    rewrite !Z.pow_add_r by lia. lia.
  - rewrite shr_1_m by exact H. reflexivity.
Qed.

Lemma shr_record_of_loc_m (m : Z) (l : location) :
  shr_m (shr_record_of_loc m l) = m.
Proof. destruct l as [|[]]; reflexivity. Qed.

Lemma loc_of_shr_record_of_loc (m : Z) (l : location) :
  loc_of_shr_record (shr_record_of_loc m l) = l.
Proof. destruct l as [|[]]; reflexivity. Qed.

Lemma shr_fexp_spec (m e : Z) (l : location) :
  0 <= m ->
  shr_m (fst (shr_fexp prec emax m e l)) = m / 2 ^ places m e
  /\ snd (shr_fexp prec emax m e l) = e + places m e
  /\ (places m e = 0 ->
      loc_of_shr_record (fst (shr_fexp prec emax m e l)) = l).
Proof.
  intros H. unfold shr_fexp, places, shr.
  destruct (fexp prec emax (Zdigits2 m + e) - e) as [|p|p] eqn:E.
  - cbn [fst snd]. rewrite shr_record_of_loc_m, Z.max_id.
    rewrite Z.pow_0_r, Z.div_1_r, Z.add_0_r.
    split; [reflexivity|]. split; [reflexivity|].
    intros _. apply loc_of_shr_record_of_loc.
  - cbn [fst snd]. rewrite Z.max_r by lia.
    rewrite iter_shr_m by (rewrite shr_record_of_loc_m; exact H).
    rewrite shr_record_of_loc_m.
    split; [reflexivity|]. split; [reflexivity|]. lia.
  - cbn [fst snd]. rewrite shr_record_of_loc_m, Z.max_l by lia.
    rewrite Z.pow_0_r, Z.div_1_r, Z.add_0_r.
    split; [reflexivity|]. split; [reflexivity|].
    intros _. apply loc_of_shr_record_of_loc.
Qed.

Lemma round_nearest_even_bounds (m : Z) (l : location) :
  m <= round_nearest_even m l <= m + 1.
Proof.
  destruct l as [|[]]; cbn; try lia. destruct (Z.even m); lia.
Qed.

Lemma binary_round_aux_shape (m e : Z) (l : location) :
  0 <= m ->
  exists l2,
    binary_round_aux prec emax false m e l
    = finish (round_nearest_even (m / 2 ^ places m e) l2) (e + places m e)
    /\ (places m e = 0 -> l2 = l).
Proof.
  intros H. unfold binary_round_aux.
  destruct (shr_fexp_spec m e l H) as (E1 & E2 & E3).
  destruct (shr_fexp prec emax m e l) as [mrs' e'] eqn:S1.
  cbn [fst snd] in E1, E2, E3. subst e'.
  exists (loc_of_shr_record mrs'). split; [|exact E3].
  rewrite E1.
  set (m3 := round_nearest_even (m / 2 ^ places m e) (loc_of_shr_record mrs')).
  assert (H3 : 0 <= m3).
  { pose proof (round_nearest_even_bounds (m / 2 ^ places m e)
                  (loc_of_shr_record mrs')).
    assert (0 <= m / 2 ^ places m e).
    { apply Z.div_pos; [lia|]. apply Z.pow_pos_nonneg; unfold places; lia. }
    unfold m3. lia. }
  destruct (shr_fexp_spec m3 (e + places m e) loc_Exact H3) as (F1 & F2 & _).
  destruct (shr_fexp prec emax m3 (e + places m e) loc_Exact)
    as [mrs'' e''] eqn:S2.
  cbn [fst snd] in F1, F2. subst e''. rewrite F1. reflexivity.
Qed.


(** *** Truncation *)

Lemma places_nonneg (m e : Z) : 0 <= places m e.
Proof. unfold places. lia. Qed.

Lemma places_cases (m : positive) (e : Z) :
  (places (Z.pos m) e = 0 /\ fexp prec emax (Z.pos (digits2_pos m) + e) <= e)
  \/ (0 < places (Z.pos m) e
      /\ e + places (Z.pos m) e
         = fexp prec emax (Z.pos (digits2_pos m) + e)).
Proof. unfold places. rewrite Zdigits2_pos. lia. Qed.

Lemma small_quotient (m : positive) (n : Z) :
  Z.pos (digits2_pos m) <= n -> Z.pos m / 2 ^ n = 0.
Proof.
  intros H. apply Z.div_small. pose proof (digits_bounds m) as [_ Hhi].
  assert (2 ^ Z.pos (digits2_pos m) <= 2 ^ n)
    by (apply Z.pow_le_mono_r; lia).
  lia.
Qed.

(** A truncated mantissa that is not zero is settled. *)
Lemma trunc_settled (m q : positive) (e : Z) :
  Z.pos m / 2 ^ places (Z.pos m) e = Z.pos q ->
  settled q (e + places (Z.pos m) e).
Proof.
  intros E. unfold settled.
  destruct (places_cases m e) as [[Z0 H]|[Pn H]].
  - rewrite Z0 in *. rewrite Z.pow_0_r, Z.div_1_r in E.
    inversion E; subst. now rewrite Z.add_0_r.
  - destruct (Z_lt_le_dec (places (Z.pos m) e) (Z.pos (digits2_pos m)))
      as [L|L].
    + destruct (digits_div m (places (Z.pos m) e)) as (q' & E' & D);
        [lia|].
      rewrite E in E'. inversion E'; subst q'.
      replace (Z.pos (digits2_pos q) + (e + places (Z.pos m) e))
        with (Z.pos (digits2_pos m) + e) by lia.
      lia.
    + rewrite small_quotient in E by exact L. discriminate.
Qed.

Lemma units_pos (m : positive) (e : Z) : -1074 <= e -> 0 < units m e.
Proof.
  intros H. unfold units.
  assert (0 < 2 ^ (e + 1074)) by (apply Z.pow_pos_nonneg; lia). lia.
Qed.

Lemma settled_bounds (m : positive) (e : Z) :
  settled m e -> -1074 <= e /\ Z.pos (digits2_pos m) <= 53.
Proof. unfold settled. rewrite fexp_eq. lia. Qed.

Lemma units_lt_digits (m : positive) (e : Z) :
  -1074 <= e -> units m e < 2 ^ (Z.pos (digits2_pos m) + e + 1074).
Proof.
  intros H. unfold units. pose proof (digits_bounds m) as [_ Hhi].
  replace (Z.pos (digits2_pos m) + e + 1074)
    with (Z.pos (digits2_pos m) + (e + 1074)) by lia.
  rewrite (Z.pow_add_r 2 (Z.pos (digits2_pos m)) (e + 1074)) by lia.
  assert (0 < 2 ^ (e + 1074)) by (apply Z.pow_pos_nonneg; lia). nia.
Qed.

Lemma units_ge_digits (m : positive) (e : Z) :
  -1074 <= e -> 2 ^ (Z.pos (digits2_pos m) - 1 + e + 1074) <= units m e.
Proof.
  intros H. unfold units. pose proof (digits_bounds m) as [Hlo _].
  replace (Z.pos (digits2_pos m) - 1 + e + 1074)
    with (Z.pos (digits2_pos m) - 1 + (e + 1074)) by lia.
  rewrite (Z.pow_add_r 2 (Z.pos (digits2_pos m) - 1) (e + 1074)) by lia.
  assert (0 < 2 ^ (e + 1074)) by (apply Z.pow_pos_nonneg; lia). nia.
Qed.

(** Truncation does not go below a settled number that the argument is
    not below. *)
Lemma trunc_above (m mx : positive) (e ex : Z) :
  -1074 <= e -> settled mx ex -> units mx ex <= units m e ->
  exists q : positive,
    Z.pos m / 2 ^ places (Z.pos m) e = Z.pos q
    /\ settled q (e + places (Z.pos m) e)
    /\ units mx ex <= units q (e + places (Z.pos m) e).
Proof.
  intros He Hx Hle.
  destruct (settled_bounds _ _ Hx) as [Hex Hdx].
  set (n := places (Z.pos m) e).
  set (d := Z.pos (digits2_pos m)).
  assert (Hn : 0 <= n < d).
  { unfold n, d, places. rewrite Zdigits2_pos, fexp_eq. lia. }
  destruct (digits_div m n Hn) as (q & Eq & Dq).
  exists q. split; [exact Eq|]. split; [now apply trunc_settled|].
  destruct (places_cases m e) as [[Z0 H]|[Pn H]]; fold n in Z0 || fold n in Pn.
  - fold n in Z0. rewrite Z0 in *. rewrite Z.pow_0_r, Z.div_1_r in Eq.
    inversion Eq; subst q. now rewrite Z.add_0_r.
  - fold n d in H.
    destruct (Z_lt_le_dec ex (e + n)) as [L|L].
    + (* the settled number is in a lower binade *)
      assert (Hk : Z.pos (digits2_pos mx) + ex <= d + e - 1).
      { unfold settled in Hx. rewrite fexp_eq in Hx, H. lia. }
      pose proof (units_lt_digits mx ex Hex) as U1.
      pose proof (units_ge_digits q (e + n) ltac:(lia)) as U2.
      rewrite Dq in U2.
      assert (2 ^ (Z.pos (digits2_pos mx) + ex + 1074)
              <= 2 ^ (d - n - 1 + (e + n) + 1074))
        by (apply Z.pow_le_mono_r; lia).
      unfold d in *. lia.
    + (* the settled number is a multiple of the new unit *)
      unfold units in *.
      assert (G1 : 2 ^ (ex + 1074)
                   = 2 ^ (ex - (e + n)) * (2 ^ n * 2 ^ (e + 1074))).
      { rewrite <- !Z.pow_add_r by lia. f_equal. lia. }
      assert (G2 : 2 ^ (e + n + 1074) = 2 ^ n * 2 ^ (e + 1074)).
      { rewrite <- Z.pow_add_r by lia. f_equal. lia. }
      rewrite G1 in *. rewrite G2.
      assert (P1 : 0 < 2 ^ (e + 1074)) by (apply Z.pow_pos_nonneg; lia).
      assert (P2 : 0 < 2 ^ n) by (apply Z.pow_pos_nonneg; lia).
      assert (P3 : 0 < 2 ^ (ex - (e + n))) by (apply Z.pow_pos_nonneg; lia).
      set (c := Z.pos mx * 2 ^ (ex - (e + n))) in *.
      assert (Hc : c * 2 ^ n <= Z.pos m).
      { apply Z.mul_le_mono_pos_r with (2 ^ (e + 1074)); [lia|].
        lia. }
      assert (Hq : c <= Z.pos m / 2 ^ n).
      { apply Z.div_le_lower_bound; lia. }
      rewrite Eq in Hq.
      replace (Z.pos mx * (2 ^ (ex - (e + n)) * (2 ^ n * 2 ^ (e + 1074))))
        with (c * (2 ^ n * 2 ^ (e + 1074))) by (unfold c; ring).
      apply Z.mul_le_mono_nonneg_r; lia.
Qed.


(** *** Results of rounding *)

Lemma units_mono (m m' : positive) (e : Z) :
  -1074 <= e -> Z.pos m <= Z.pos m' -> units m e <= units m' e.
Proof.
  intros He H. unfold units.
  apply Z.mul_le_mono_nonneg_r; [|exact H].
  apply Z.pow_nonneg. lia.
Qed.

Lemma finish_positive (m e : Z) : 0 <= m -> positive_result (finish m e).
Proof.
  intros H. unfold finish, positive_result.
  destruct m as [|p|p]; [| |lia].
  - rewrite Z.div_0_l; [auto|].
    apply Z.pow_nonzero; [lia|apply places_nonneg].
  - destruct (Z.pos p / 2 ^ places (Z.pos p) e) as [|q|q] eqn:E; auto.
    destruct (e + places (Z.pos p) e <=? emax - prec) eqn:B; auto.
    right. right. right. exists q, (e + places (Z.pos p) e).
    split; [reflexivity|]. split; [now apply trunc_settled|].
    apply Z.leb_le in B. exact B.
Qed.

Lemma finish_above (m mx : positive) (e ex : Z) :
  -1074 <= e -> settled mx ex -> units mx ex <= units m e ->
  finish (Z.pos m) e = S754_infinity false
  \/ exists q e',
       finish (Z.pos m) e = S754_finite false q e'
       /\ settled q e' /\ e' <= 971 /\ units mx ex <= units q e'.
Proof.
  intros He Hx Hle.
  destruct (trunc_above m mx e ex He Hx Hle) as (q & Eq & Sq & Uq).
  unfold finish. rewrite Eq.
  destruct (e + places (Z.pos m) e <=? emax - prec) eqn:B; auto.
  right. exists q, (e + places (Z.pos m) e).
  apply Z.leb_le in B. auto.
Qed.

Lemma binary_round_aux_positive (m : positive) (e : Z) (l : location) :
  positive_result (binary_round_aux prec emax false (Z.pos m) e l).
Proof.
  destruct (binary_round_aux_shape (Z.pos m) e l) as (l2 & -> & _); [lia|].
  apply finish_positive.
  pose proof (round_nearest_even_bounds
                (Z.pos m / 2 ^ places (Z.pos m) e) l2).
  assert (0 <= Z.pos m / 2 ^ places (Z.pos m) e).
  { apply Z.div_pos; [lia|]. apply Z.pow_pos_nonneg; [lia|].
    apply places_nonneg. }
  lia.
Qed.

(** Rounding does not go below a settled number that the argument is not
    below. *)
Lemma binary_round_aux_above (m mx : positive) (e ex : Z) (l : location) :
  -1074 <= e -> settled mx ex -> units mx ex <= units m e ->
  binary_round_aux prec emax false (Z.pos m) e l = S754_infinity false
  \/ exists q e',
       binary_round_aux prec emax false (Z.pos m) e l
       = S754_finite false q e'
       /\ settled q e' /\ e' <= 971 /\ units mx ex <= units q e'.
Proof.
  intros He Hx Hle.
  destruct (binary_round_aux_shape (Z.pos m) e l) as (l2 & -> & _); [lia|].
  destruct (trunc_above m mx e ex He Hx Hle) as (q & Eq & Sq & Uq).
  rewrite Eq.
  pose proof (round_nearest_even_bounds (Z.pos q) l2) as B.
  pose proof (places_nonneg (Z.pos m) e) as Pn.
  destruct (round_nearest_even (Z.pos q) l2) as [|p3|p3]; try lia.
  apply finish_above; [lia|exact Hx|].
  etransitivity; [exact Uq|]. apply units_mono; lia.
Qed.

(** *** Alignment *)

Lemma iter_xO (d m : positive) :
  Z.pos (Pos.iter xO m d) = Z.pos m * 2 ^ Z.pos d.
Proof.
  induction d as [|d IH] using Pos.peano_ind.
  - cbn. lia.
  - rewrite Pos.iter_succ, Pos2Z.inj_xO, IH, Pos2Z.inj_succ.
    rewrite Z.pow_succ_r by lia. lia.
Qed.

Lemma shl_align_spec (m : positive) (e e' : Z) :
  snd (shl_align m e e') = Z.min e e'
  /\ Z.pos (fst (shl_align m e e')) = Z.pos m * 2 ^ (e - Z.min e e').
Proof.
  unfold shl_align. destruct (e' - e) as [|d|d] eqn:E; cbn [fst snd].
  - rewrite Z.min_l by lia. rewrite Z.sub_diag. cbn. lia.
  - rewrite Z.min_l by lia. rewrite Z.sub_diag. cbn. lia.
  - rewrite Z.min_r by lia. split; [reflexivity|].
    rewrite iter_xO. f_equal. f_equal. lia.
Qed.

Lemma shl_align_units (m : positive) (e e' : Z) :
  -1074 <= e -> -1074 <= e' ->
  units (fst (shl_align m e e')) (snd (shl_align m e e')) = units m e.
Proof.
  intros He He'. destruct (shl_align_spec m e e') as [-> E].
  unfold units. rewrite E, <- Z.mul_assoc, <- Z.pow_add_r by lia.
  f_equal. f_equal. lia.
Qed.

Lemma binary_round_positive (m : positive) (e : Z) :
  positive_result (binary_round prec emax false m e).
Proof.
  unfold binary_round.
  destruct (shl_align m e (fexp prec emax (Z.pos (digits2_pos m) + e)))
    as [mz ez].
  apply binary_round_aux_positive.
Qed.

Lemma binary_round_above (m mx : positive) (e ex : Z) :
  -1074 <= e -> settled mx ex -> units mx ex <= units m e ->
  binary_round prec emax false m e = S754_infinity false
  \/ exists q e',
       binary_round prec emax false m e = S754_finite false q e'
       /\ settled q e' /\ e' <= 971 /\ units mx ex <= units q e'.
Proof.
  intros He Hx Hle. unfold binary_round.
  pose proof (shl_align_spec m e
                (fexp prec emax (Z.pos (digits2_pos m) + e))) as [E1 _].
  pose proof (shl_align_units m e
                (fexp prec emax (Z.pos (digits2_pos m) + e)) He
                ltac:(rewrite fexp_eq; lia)) as E2.
  destruct (shl_align m e (fexp prec emax (Z.pos (digits2_pos m) + e)))
    as [mz ez].
  cbn [fst snd] in E1, E2.
  apply binary_round_aux_above; [|exact Hx|now rewrite E2].
  rewrite E1, fexp_eq. lia.
Qed.

(** *** Squares and sums *)

Lemma mul_self_positive (x : float) : positive_result (mul x x).
Proof.
  unfold positive_result.
  destruct x as [s|s| |s m e]; cbn; rewrite ?xorb_nilpotent; auto.
  apply (binary_round_aux_positive (m * m) (e + e) loc_Exact).
Qed.

Lemma add_finite (ma mb : positive) (ea eb : Z) :
  -1074 <= ea -> -1074 <= eb ->
  exists n : positive,
    add (S754_finite false ma ea) (S754_finite false mb eb)
    = binary_round prec emax false n (Z.min ea eb)
    /\ units n (Z.min ea eb) = units ma ea + units mb eb.
Proof.
  intros Ha Hb. unfold add, SFadd. cbv zeta.
  destruct (shl_align_spec ma ea (Z.min ea eb)) as [_ Ea].
  destruct (shl_align_spec mb eb (Z.min ea eb)) as [_ Eb].
  rewrite (Z.min_r ea (Z.min ea eb)) in Ea by lia.
  rewrite (Z.min_r eb (Z.min ea eb)) in Eb by lia.
  cbn [cond_Zopp].
  exists (fst (shl_align ma ea (Z.min ea eb))
          + fst (shl_align mb eb (Z.min ea eb)))%positive.
  split; [reflexivity|].
  unfold units. rewrite Pos2Z.inj_add, Ea, Eb.
  rewrite Z.mul_add_distr_r, <- !Z.mul_assoc, <- !Z.pow_add_r by lia.
  f_equal; f_equal; f_equal; lia.
Qed.

Lemma add_positive (a b : float) :
  positive_result a -> positive_result b -> positive_result (add a b).
Proof.
  intros Ha Hb.
  destruct Ha as [->|[->|[->|(ma & ea & -> & Sa & Ba)]]];
    destruct Hb as [->|[->|[->|(mb & eb & -> & Sb & Bb)]]];
    try (unfold positive_result; cbn; auto; fail).
  - unfold positive_result. right. right. right. cbn. eauto.
  - unfold positive_result. right. right. right. cbn. eauto.
  - destruct (settled_bounds _ _ Sa) as [Ha _].
    destruct (settled_bounds _ _ Sb) as [Hb _].
    destruct (add_finite ma mb ea eb Ha Hb) as (n & -> & _).
    apply binary_round_positive.
Qed.

(** A sum of two positive numbers is not below the second. *)
Lemma add_above (ma mx : positive) (ea ex : Z) :
  settled ma ea -> settled mx ex ->
  add (S754_finite false ma ea) (S754_finite false mx ex)
  = S754_infinity false
  \/ exists q e',
       add (S754_finite false ma ea) (S754_finite false mx ex)
       = S754_finite false q e'
       /\ settled q e' /\ e' <= 971 /\ units mx ex <= units q e'.
Proof.
  intros Sa Sx.
  destruct (settled_bounds _ _ Sa) as [Ha _].
  destruct (settled_bounds _ _ Sx) as [Hx _].
  destruct (add_finite ma mx ea ex Ha Hx) as (n & -> & U).
  apply binary_round_above; [lia|exact Sx|].
  pose proof (units_pos ma ea Ha). lia.
Qed.


(** *** Square roots *)

Lemma half_bounds (a : Z) : 2 * Z.div2 a <= a <= 2 * Z.div2 a + 1.
Proof.
  rewrite Z.div2_div. pose proof (Z.div_mod a 2 ltac:(lia)).
  pose proof (Z.mod_pos_bound a 2 ltac:(lia)). lia.
Qed.

Lemma root_exponent_bounds (m : positive) (e : Z) :
  settled m e -> e <= 971 ->
  -589 <= root_exponent m e <= 459
  /\ 52 <= e - 2 * root_exponent m e
  /\ 105 <= Z.pos (digits2_pos m) + e - 2 * root_exponent m e <= 106.
Proof.
  intros S B. destruct (settled_bounds _ _ S) as [He Hd].
  unfold settled in S. rewrite fexp_eq in S.
  unfold root_exponent.
  pose proof (half_bounds (Z.pos (digits2_pos m) + e + 1)). lia.
Qed.

Lemma radicand_bounds (m : positive) (e : Z) :
  settled m e -> e <= 971 ->
  2 ^ 104 <= radicand m e < 2 ^ 106.
Proof.
  intros S B. destruct (root_exponent_bounds m e S B) as (G & Hs & Hk).
  pose proof (digits_bounds m) as [Dlo Dhi].
  unfold radicand.
  set (s := e - 2 * root_exponent m e) in *.
  set (d := Z.pos (digits2_pos m)) in *.
  assert (P : 0 < 2 ^ s) by (apply Z.pow_pos_nonneg; lia).
  split.
  - apply Z.le_trans with (2 ^ (d - 1) * 2 ^ s).
    + rewrite <- Z.pow_add_r by lia. apply Z.pow_le_mono_r; lia.
    + apply Z.mul_le_mono_nonneg_r; lia.
  - apply Z.lt_le_trans with (2 ^ d * 2 ^ s).
    + apply Z.mul_lt_mono_pos_r; lia.
    + rewrite <- Z.pow_add_r by lia. apply Z.pow_le_mono_r; lia.
Qed.

Lemma root_bounds (m : positive) (e : Z) :
  settled m e -> e <= 971 ->
  2 ^ 52 <= Z.sqrt (radicand m e) < 2 ^ 53.
Proof.
  intros S B. destruct (radicand_bounds m e S B) as [Rlo Rhi].
  split.
  - apply Z.sqrt_le_square; [lia|apply Z.pow_nonneg; lia|].
    change (2 ^ 52 * 2 ^ 52) with (2 ^ 104). exact Rlo.
  - apply Z.sqrt_lt_square; [lia|apply Z.pow_nonneg; lia|].
    change (2 ^ 53 * 2 ^ 53) with (2 ^ 106). exact Rhi.
Qed.

Lemma rounded_root_bounds (m : positive) (e : Z) :
  settled m e -> e <= 971 ->
  Z.sqrt (radicand m e) <= rounded_root m e <= Z.sqrt (radicand m e) + 1.
Proof.
  intros S B. unfold rounded_root. cbv zeta.
  destruct (_ <? _); lia.
Qed.

(** The core of the square root on a settled number. *)
Lemma sqrt_core (m : positive) (e : Z) :
  settled m e -> e <= 971 ->
  let q := Z.sqrt (radicand m e) in
  let r := radicand m e - q * q in
  SFsqrt_core_binary prec emax (Z.pos m) e
  = (q, root_exponent m e,
     if r =? 0 then loc_Exact
     else loc_Inexact (if r <=? q then Lt else Gt)).
Proof.
  intros S B. cbv zeta.
  destruct (root_exponent_bounds m e S B) as (G & Hs & Hk).
  destruct (settled_bounds _ _ S) as [He Hd].
  unfold SFsqrt_core_binary. rewrite Zdigits2_pos.
  assert (E' : Z.min (fexp prec emax
                        (Z.div2 (Z.pos (digits2_pos m) + e + 1)))
                     (Z.div2 e)
               = root_exponent m e).
  { rewrite fexp_eq. unfold root_exponent in *.
    pose proof (half_bounds (Z.pos (digits2_pos m) + e + 1)).
    pose proof (half_bounds e).
    unfold settled in S. rewrite fexp_eq in S. lia. }
  rewrite E'.
  assert (M : match e - 2 * root_exponent m e with
              | 0 => Z.pos m
              | Z.pos _ => Z.shiftl (Z.pos m) (e - 2 * root_exponent m e)
              | Z.neg _ => 0
              end = radicand m e).
  { unfold radicand.
    destruct (e - 2 * root_exponent m e) as [|p|p] eqn:Es; try lia.
    rewrite Z.shiftl_mul_pow2 by lia. reflexivity. }
  rewrite M.
  pose proof (radicand_bounds m e S B) as [Rlo _].
  assert (R0 : 0 <= radicand m e).
  { pose proof (Z.pow_nonneg 2 104). lia. }
  pose proof (Z.sqrtrem_spec (radicand m e) R0) as Spec.
  pose proof (Z.sqrtrem_sqrt (radicand m e)) as Sq.
  destruct (Z.sqrtrem (radicand m e)) as [q r]. cbn [fst] in Sq.
  destruct Spec as [E _]. subst q.
  replace (radicand m e - Z.sqrt (radicand m e) * Z.sqrt (radicand m e))
    with r by lia.
  reflexivity.
Qed.

Lemma places_53 (q : positive) (g : Z) :
  2 ^ 52 <= Z.pos q < 2 ^ 53 -> -1074 <= g -> places (Z.pos q) g = 0.
Proof.
  intros H G. unfold places. rewrite Zdigits2_pos.
  rewrite (digits_unique q 53) by exact H.
  rewrite fexp_eq. lia.
Qed.

(** The square root of a settled number: a mantissa of 53 digits whose
    value is the rounded root. *)
Lemma sqrt_settled (m : positive) (e : Z) :
  settled m e -> e <= 971 ->
  exists (m' : positive) (e' : Z),
    sqrt (S754_finite false m e) = S754_finite false m' e'
    /\ 2 ^ 52 <= Z.pos m' < 2 ^ 53
    /\ root_exponent m e <= e'
    /\ Z.pos m' * 2 ^ (e' - root_exponent m e) = rounded_root m e.
Proof.
  intros S B.
  destruct (root_exponent_bounds m e S B) as (G & _ & _).
  pose proof (root_bounds m e S B) as Q.
  unfold sqrt, SFsqrt. rewrite (sqrt_core m e S B).
  set (g := root_exponent m e) in *.
  unfold rounded_root. cbv zeta.
  assert (P52 : 0 < 2 ^ 52) by (apply Z.pow_pos_nonneg; lia).
  destruct (Z.sqrt (radicand m e)) as [|q|q] eqn:Eq; try lia.
  set (r := radicand m e - Z.pos q * Z.pos q) in *.
  destruct (binary_round_aux_shape (Z.pos q) g
              (if r =? 0 then loc_Exact
               else loc_Inexact (if r <=? Z.pos q then Lt else Gt)))
    as (l2 & -> & L2); [lia|].
  rewrite (places_53 q g Q ltac:(lia)) in *.
  rewrite (L2 eq_refl). clear L2 l2.
  rewrite Z.pow_0_r, Z.div_1_r, Z.add_0_r.
  assert (Hup :
    round_nearest_even (Z.pos q)
      (if r =? 0 then loc_Exact
       else loc_Inexact (if r <=? Z.pos q then Lt else Gt))
    = if Z.pos q <? r then Z.pos q + 1 else Z.pos q).
  { destruct (r =? 0) eqn:R0.
    - apply Z.eqb_eq in R0. cbn.
      destruct (Z.pos q <? r) eqn:L; auto. apply Z.ltb_lt in L. lia.
    - destruct (r <=? Z.pos q) eqn:R1; cbn.
      + apply Z.leb_le in R1.
        destruct (Z.pos q <? r) eqn:L; auto. apply Z.ltb_lt in L. lia.
      + apply Z.leb_gt in R1.
        destruct (Z.pos q <? r) eqn:L; auto. apply Z.ltb_ge in L. lia. }
  rewrite Hup. clear Hup.
  set (m3 := if Z.pos q <? r then Z.pos q + 1 else Z.pos q).
  assert (H3 : Z.pos q <= m3 <= Z.pos q + 1)
    by (unfold m3; destruct (_ <? _); lia).
  clearbody m3.
  destruct m3 as [|p3|p3]; try lia.
  unfold finish.
  destruct (Z_lt_le_dec (Z.pos p3) (2 ^ 53)) as [L|L].
  - rewrite (places_53 p3 g) by lia.
    rewrite Z.pow_0_r, Z.div_1_r, Z.add_0_r.
    change (emax - prec) with 971.
    assert (Hg : (g <=? 971) = true) by (apply Z.leb_le; lia).
    rewrite Hg.
    exists p3, g. split; [reflexivity|]. split; [lia|]. split; [lia|].
    rewrite Z.sub_diag. cbn. lia.
  - assert (E3 : Z.pos p3 = 2 ^ 53) by lia.
    assert (P1 : places (Z.pos p3) g = 1).
    { unfold places. rewrite Zdigits2_pos.
      rewrite (digits_unique p3 54).
      - rewrite fexp_eq. lia.
      - rewrite E3. change (54 - 1) with 53. split; [lia|].
        apply Z.pow_lt_mono_r; lia. }
    rewrite P1, E3. change (2 ^ 53 / 2 ^ 1) with (2 ^ 52).
    change (emax - prec) with 971.
    assert (Hg : (g + 1 <=? 971) = true) by (apply Z.leb_le; lia).
    rewrite Hg.
    destruct (2 ^ 52) as [|p|p] eqn:E52; try lia.
    exists p, (g + 1). split; [reflexivity|].
    split; [rewrite <- E52; split; [lia|apply Z.pow_lt_mono_r; lia]|].
    split; [lia|].
    replace (g + 1 - g) with 1 by lia. rewrite <- E52.
    change (2 ^ 52 * 2 ^ 1) with (2 ^ 53). lia.
Qed.


(** *** The square root grows with its argument *)

Lemma reach_mono (mx my : positive) (ex ey : Z) :
  -1074 <= ex -> -1074 <= ey -> units mx ex <= units my ey ->
  Z.pos (digits2_pos mx) + ex <= Z.pos (digits2_pos my) + ey.
Proof.
  intros Hx Hy H.
  destruct (Z_le_gt_dec (Z.pos (digits2_pos mx) + ex)
              (Z.pos (digits2_pos my) + ey)) as [L|L]; auto.
  pose proof (units_lt_digits my ey Hy) as U1.
  pose proof (units_ge_digits mx ex Hx) as U2.
  assert (2 ^ (Z.pos (digits2_pos my) + ey + 1074)
          <= 2 ^ (Z.pos (digits2_pos mx) - 1 + ex + 1074))
    by (apply Z.pow_le_mono_r; lia).
  lia.
Qed.

Lemma radicand_mono (mx my : positive) (ex ey : Z) :
  settled mx ex -> ex <= 971 -> settled my ey -> ey <= 971 ->
  root_exponent mx ex = root_exponent my ey ->
  units mx ex <= units my ey -> radicand mx ex <= radicand my ey.
Proof.
  intros Sx Bx Sy By Eg H.
  destruct (root_exponent_bounds mx ex Sx Bx) as (Gx & Hsx & _).
  destruct (root_exponent_bounds my ey Sy By) as (Gy & Hsy & _).
  destruct (settled_bounds _ _ Sx) as [Hx _].
  destruct (settled_bounds _ _ Sy) as [Hy _].
  unfold radicand, units in *. rewrite Eg in *.
  set (g := root_exponent my ey) in *.
  destruct (Z_le_gt_dec (2 * g) (-1074)) as [L|L].
  - (* the radicands are the units scaled up *)
    assert (Fx : 2 ^ (ex - 2 * g) = 2 ^ (ex + 1074) * 2 ^ (-1074 - 2 * g)).
    { rewrite <- Z.pow_add_r by lia. f_equal. lia. }
    assert (Fy : 2 ^ (ey - 2 * g) = 2 ^ (ey + 1074) * 2 ^ (-1074 - 2 * g)).
    { rewrite <- Z.pow_add_r by lia. f_equal. lia. }
    rewrite Fx, Fy, !Z.mul_assoc.
    apply Z.mul_le_mono_nonneg_r; [apply Z.pow_nonneg; lia|exact H].
  - (* the units are the radicands scaled up *)
    assert (Fx : 2 ^ (ex + 1074) = 2 ^ (ex - 2 * g) * 2 ^ (2 * g + 1074)).
    { rewrite <- Z.pow_add_r by lia. f_equal. lia. }
    assert (Fy : 2 ^ (ey + 1074) = 2 ^ (ey - 2 * g) * 2 ^ (2 * g + 1074)).
    { rewrite <- Z.pow_add_r by lia. f_equal. lia. }
    rewrite Fx, Fy, !Z.mul_assoc in H.
    apply Z.mul_le_mono_pos_r in H; [exact H|].
    apply Z.pow_pos_nonneg; lia.
Qed.

Lemma rounded_root_mono (mx my : positive) (ex ey : Z) :
  settled mx ex -> ex <= 971 -> settled my ey -> ey <= 971 ->
  units mx ex <= units my ey ->
  root_exponent mx ex <= root_exponent my ey
  /\ rounded_root mx ex
     <= rounded_root my ey * 2 ^ (root_exponent my ey - root_exponent mx ex).
Proof.
  intros Sx Bx Sy By H.
  destruct (settled_bounds _ _ Sx) as [Hx _].
  destruct (settled_bounds _ _ Sy) as [Hy _].
  pose proof (reach_mono mx my ex ey Hx Hy H) as K.
  assert (G : root_exponent mx ex <= root_exponent my ey).
  { unfold root_exponent. rewrite !Z.div2_div.
    pose proof (Z.div_le_mono (Z.pos (digits2_pos mx) + ex + 1)
                  (Z.pos (digits2_pos my) + ey + 1) 2 ltac:(lia)
                  ltac:(lia)).
    lia. }
  split; [exact G|].
  pose proof (root_bounds mx ex Sx Bx) as Qx.
  pose proof (root_bounds my ey Sy By) as Qy.
  pose proof (rounded_root_bounds mx ex Sx Bx) as Rx.
  pose proof (rounded_root_bounds my ey Sy By) as Ry.
  assert (P52 : 0 < 2 ^ 52) by (apply Z.pow_pos_nonneg; lia).
  assert (E53 : 2 ^ 53 = 2 * 2 ^ 52) by reflexivity.
  destruct (Z.eq_dec (root_exponent mx ex) (root_exponent my ey)) as [E|N].
  - rewrite E, Z.sub_diag, Z.pow_0_r, Z.mul_1_r.
    pose proof (radicand_mono mx my ex ey Sx Bx Sy By E H) as R.
    pose proof (radicand_bounds mx ex Sx Bx) as [Rlo _].
    assert (R0 : 0 <= radicand mx ex)
      by (pose proof (Z.pow_nonneg 2 104); lia).
    pose proof (Z.sqrt_le_mono _ _ R) as Q.
    destruct (Z.eq_dec (Z.sqrt (radicand mx ex)) (Z.sqrt (radicand my ey)))
      as [Eq|Nq]; [|lia].
    unfold rounded_root. cbv zeta. rewrite <- Eq.
    destruct (Z.sqrt (radicand mx ex)
              <? radicand mx ex
                 - Z.sqrt (radicand mx ex) * Z.sqrt (radicand mx ex)) eqn:Ux.
    + apply Z.ltb_lt in Ux.
      assert (Uy : (Z.sqrt (radicand mx ex)
                    <? radicand my ey
                       - Z.sqrt (radicand mx ex) * Z.sqrt (radicand mx ex))
                   = true).
      { apply Z.ltb_lt. clear - Ux R.
        set (q2 := Z.sqrt (radicand mx ex) * Z.sqrt (radicand mx ex)) in *.
        lia. }
      rewrite Uy. lia.
    + match goal with
      | |- context [if ?c then _ else _] => destruct c
      end; lia.
  - assert (P : 2 <= 2 ^ (root_exponent my ey - root_exponent mx ex)).
    { change 2 with (2 ^ 1) at 1. apply Z.pow_le_mono_r; lia. }
    nia.
Qed.

(** Two mantissas of 53 digits compare as their values do. *)
Lemma normal_order (m1 m2 : positive) (e1 e2 g : Z) :
  2 ^ 52 <= Z.pos m1 < 2 ^ 53 -> 2 ^ 52 <= Z.pos m2 < 2 ^ 53 ->
  g <= e1 -> g <= e2 ->
  Z.pos m1 * 2 ^ (e1 - g) <= Z.pos m2 * 2 ^ (e2 - g) ->
  ltb (S754_finite false m2 e2) (S754_finite false m1 e1) = false.
Proof.
  intros H1 H2 G1 G2 H. unfold ltb, SFltb, SFcompare.
  assert (E53 : 2 ^ 53 = 2 * 2 ^ 52) by reflexivity.
  destruct (Z.compare_spec e2 e1) as [E|L|L]; auto.
  - subst e2. change (Pos.compare_cont Eq m2 m1) with (Pos.compare m2 m1).
    destruct (Pos.compare_spec m2 m1) as [?|L|?]; auto.
    assert (P : 0 < 2 ^ (e1 - g)) by (apply Z.pow_pos_nonneg; lia).
    assert (Z.pos m2 < Z.pos m1) by lia. nia.
  - assert (P : 0 < 2 ^ (e2 - g)) by (apply Z.pow_pos_nonneg; lia).
    assert (F : 2 ^ (e1 - g) = 2 ^ (e1 - e2) * 2 ^ (e2 - g)).
    { rewrite <- Z.pow_add_r by lia. f_equal. lia. }
    assert (T : 2 <= 2 ^ (e1 - e2)).
    { change 2 with (2 ^ 1) at 1. apply Z.pow_le_mono_r; lia. }
    rewrite F in H. nia.
Qed.

Lemma sqrt_mono (mx my : positive) (ex ey : Z) :
  settled mx ex -> ex <= 971 -> settled my ey -> ey <= 971 ->
  units mx ex <= units my ey ->
  ltb (sqrt (S754_finite false my ey)) (sqrt (S754_finite false mx ex))
  = false.
Proof.
  intros Sx Bx Sy By H.
  destruct (sqrt_settled mx ex Sx Bx) as (m1 & e1 & -> & N1 & G1 & V1).
  destruct (sqrt_settled my ey Sy By) as (m2 & e2 & -> & N2 & G2 & V2).
  destruct (rounded_root_mono mx my ex ey Sx Bx Sy By H) as [G M].
  apply (normal_order m1 m2 e1 e2 (root_exponent mx ex)); auto; [lia|].
  rewrite V1. rewrite <- V2 in M.
  rewrite <- Z.mul_assoc, <- Z.pow_add_r in M by lia.
  replace (e2 - root_exponent my ey
           + (root_exponent my ey - root_exponent mx ex))
    with (e2 - root_exponent mx ex) in M by lia.
  exact M.
Qed.

(** *** The norm of a vector *)

(** Adding a square to the north and east parts of a vector never makes it
    shorter. *)
Lemma sqrt_add_above (a x : float) :
  positive_result a -> positive_result x ->
  ltb (sqrt (add a x)) (sqrt x) = false.
Proof.
  intros Ha Hx.
  destruct Hx as [->|[->|[->|(mx & ex & -> & Sx & Bx)]]].
  - apply F64More.sqrt_not_negative. reflexivity.
  - destruct Ha as [->|[->|[->|(ma & ea & -> & Sa & Ba)]]]; reflexivity.
  - destruct Ha as [->|[->|[->|(ma & ea & -> & Sa & Ba)]]]; reflexivity.
  - destruct Ha as [->|[->|[->|(ma & ea & -> & Sa & Ba)]]].
    + apply ltb_irrefl.
    + apply (F64More.inf_ltb (sqrt (S754_finite false mx ex))).
    + apply (F64More.ltb_nan_l nan (sqrt (S754_finite false mx ex))).
      reflexivity.
    + destruct (add_above ma mx ea ex Sa Sx)
        as [->|(q & e' & -> & Sq & Bq & U)].
      * apply F64More.inf_ltb.
      * now apply sqrt_mono.
Qed.

Lemma norm_lateral_not_shorter (n e d : float) :
  ltb (norm (mkVec n e d)) (norm (mkVec zero zero d)) = false.
Proof.
  unfold norm. cbn [vn ve vd].
  pose proof (mul_self_positive d) as Hd.
  assert (E : add (add (mul zero zero) (mul zero zero)) (mul d d)
              = mul d d).
  { destruct Hd as [->|[->|[->|(mx & ex & -> & _)]]]; reflexivity. }
  rewrite E.
  apply sqrt_add_above; [|exact Hd].
  apply add_positive; apply mul_self_positive.
Qed.

End F64Round.

(* ===================================================================== *)
(** ** Construction *)
(* ===================================================================== *)

(** What the constructor builds from a polygon and two elevations. *)
Lemma prism_init (parse : string -> option float) (digest : string)
    (poly : Polygon) (z0 zt : float) :
  PrismaticShape.__init__ parse digest (Some poly) (Some z0) (Some zt) None
  = Ok (PrismaticShape.mk
          (ShapePrimitive.mk poly (DStr digest) (DNum F64.micro)) z0 zt).
Proof.
  unfold PrismaticShape.__init__, PrismaticShape.define_from_dictionary,
    ShapePrimitive.define_from_dictionary, getitem.
  now simplify_map_eq.
Qed.

(** With no elevation given the prism is unbounded. *)
Lemma prism_init_defaults (parse : string -> option float) (digest : string)
    (poly : Polygon) :
  PrismaticShape.__init__ parse digest (Some poly) None None None
  = Ok (unbounded_prism
          (ShapePrimitive.mk poly (DStr digest) (DNum F64.micro))).
Proof.
  unfold PrismaticShape.__init__, PrismaticShape.define_from_dictionary,
    ShapePrimitive.define_from_dictionary, getitem.
  now simplify_map_eq.
Qed.

(** C6, as stated, fails: a prism whose top (down position 1) lies below
    its base (down position 0) is constructed without any error. *)
Lemma prism_top_below_base_constructs :
  PrismaticShape.__init__ (fun _ => None) "prism" (Some solid_square)
    (Some (F64.of_Z 0)) (Some (F64.of_Z 1)) None
  = Ok (PrismaticShape.mk
          (ShapePrimitive.mk solid_square (DStr "prism") (DNum F64.micro))
          (F64.of_Z 0) (F64.of_Z 1))
  /\ F64.gtb (F64.of_Z 1) (F64.of_Z 0) = true.
Proof. split; [apply prism_init | reflexivity]. Qed.

(** C6, amended.  Construction does not compare the two elevations: a
    definition holding a polygon and numbers under [z0] and [zt] always
    yields a shape, whose base and top are those numbers as given. *)
Theorem prism_construction_unchecked (parse : string -> option float)
    (digest : string) (definition : gmap string DVal)
    (poly : Polygon) (z0 zt : float) :
  definition !! "shape"%string = Some (DShape poly) ->
  definition !! "z0"%string = Some (DNum z0) ->
  definition !! "zt"%string = Some (DNum zt) ->
  exists flat,
    PrismaticShape.define_from_dictionary parse digest definition
    = Ok (PrismaticShape.mk flat z0 zt)
    /\ ShapePrimitive._shape flat = poly.
Proof.
  intros Hshape Hz0 Hzt.
  unfold PrismaticShape.define_from_dictionary,
    ShapePrimitive.define_from_dictionary, getitem.
  rewrite Hshape, Hz0, Hzt. cbn. eexists. split; reflexivity.
Qed.

Lemma prism_construction_unchecked_witness :
  exists flat,
    PrismaticShape.define_from_dictionary (fun _ => None) "prism"
      (<[ "shape"%string := DShape solid_square ]>
         (<[ "z0"%string := DNum (F64.of_Z 0) ]>
            {[ "zt"%string := DNum (F64.of_Z 1) ]}))
    = Ok (PrismaticShape.mk flat (F64.of_Z 0) (F64.of_Z 1))
    /\ ShapePrimitive._shape flat = solid_square.
Proof.
  apply (prism_construction_unchecked (fun _ => None) "prism"
           (<[ "shape"%string := DShape solid_square ]>
              (<[ "z0"%string := DNum (F64.of_Z 0) ]>
                 {[ "zt"%string := DNum (F64.of_Z 1) ]}))
           solid_square (F64.of_Z 0) (F64.of_Z 1));
    vm_compute; reflexivity.
Defined.

(* ===================================================================== *)
(** ** Point containment *)
(* ===================================================================== *)

(** C1.  A prismatic shape contains a three-dimensional point exactly when
    the point is within the prism's polygon, exterior and holes (the test
    [point.within(polygon)], which is shapely's), and the point's down
    coordinate lies strictly between the top and the base; a point whose
    down coordinate equals the top or the base is not inside. *)
Theorem prism_is_point_inside_iff {C : Containment}
    (self : PrismaticShape.t) (point : Point) :
  (PrismaticShape.is_point_inside self point = true <->
     point_within point (PrismaticShape._shape self) = true
     /\ F64.ltb (PrismaticShape._zt self) (pz point) = true
     /\ F64.ltb (pz point) (PrismaticShape._z0 self) = true)
  /\ (F64.eqb (pz point) (PrismaticShape._zt self) = true
      \/ F64.eqb (pz point) (PrismaticShape._z0 self) = true ->
      PrismaticShape.is_point_inside self point = false).
Proof.
  assert (Hiff :
    PrismaticShape.is_point_inside self point = true <->
      point_within point (PrismaticShape._shape self) = true
      /\ F64.ltb (PrismaticShape._zt self) (pz point) = true
      /\ F64.ltb (pz point) (PrismaticShape._z0 self) = true).
  { unfold PrismaticShape.is_point_inside, ShapePrimitive.is_point_inside,
      PrismaticShape._shape, F64.gtb.
    rewrite !andb_true_iff. unfold F64.ltb. tauto. }
  split; [exact Hiff|].
  intros Hedge. apply F64Facts.not_true_false. intros E.
  apply (proj1 Hiff) in E. destruct E as (_ & Htop & Hbase).
  destruct Hedge as [Heq|Heq];
    apply F64Facts.eqb_not_ltb in Heq; destruct Heq; congruence.
Qed.

Lemma prism_is_point_inside_witness :
  PrismaticShape.is_point_inside
    (prism_of solid_square (F64.of_Z (-5)) (F64.of_Z 5)) (pt 5 5 5) = false.
Proof.
  apply (proj2 (prism_is_point_inside_iff
                  (prism_of solid_square (F64.of_Z (-5)) (F64.of_Z 5))
                  (pt 5 5 5))).
  right. reflexivity.
Defined.

(** Scenarios a, b and e of the specification. *)
Example scenario_a :
  PrismaticShape.is_point_inside
    (prism_of solid_square (F64.of_Z (-5)) (F64.of_Z 5)) (pt 5 5 0) = true.
Proof. reflexivity. Qed.

Example scenario_b :
  PrismaticShape.is_point_inside
    (prism_of solid_square (F64.of_Z (-5)) (F64.of_Z 5)) (pt 5 5 6) = false.
Proof. reflexivity. Qed.

Example scenario_e :
  PrismaticShape.is_point_inside
    (prism_of scenario_e_square (F64.of_Z (-5)) (F64.of_Z 5)) (pt 3 3 0)
  = false.
Proof. reflexivity. Qed.

(* ===================================================================== *)
(** ** Path intersections *)
(* ===================================================================== *)

(** The name the first test of [exterior_intersections] reads is bound
    nowhere. *)
Lemma intersections_unbound (g : Geom) :
  load_name [("self", OOther); ("path", OOther);
             ("intersection", OGeom g)]%string "intersections"
  = Raise (NameError "intersections").
Proof. reflexivity. Qed.

(** Both [exterior_intersections] stop at that name. *)
Lemma exterior_intersections_stop {I : Intersect}
    (self : ShapePrimitive.t) (path : LineString) :
  ShapePrimitive.exterior_intersections self path
  = Raise (NameError "intersections").
Proof.
  unfold ShapePrimitive.exterior_intersections.
  now rewrite intersections_unbound.
Qed.

Lemma prism_exterior_intersections_stop
    {C : Containment} {I : Intersect} {L : Locate} {S : Segments}
    (self : PrismaticShape.t) (path : LineString) :
  PrismaticShape.exterior_intersections self path
  = Raise (NameError "intersections").
Proof.
  unfold PrismaticShape.exterior_intersections.
  now rewrite exterior_intersections_stop.
Qed.

(** C4.  Whatever the intersection computation hands back (nothing, one
    point, several points or a curve), [exterior_intersections] of a flat
    shape returns no tuple: reading the unbound name [intersections] raises
    [NameError] on every call. *)
Theorem flat_exterior_intersections_raises {I : Intersect}
    (self : ShapePrimitive.t) (path : LineString) :
  ShapePrimitive.exterior_intersections self path
  = Raise (NameError "intersections").
Proof. apply exterior_intersections_stop. Qed.

(** C2.  [exterior_intersections] of a prismatic shape starts with the flat
    shape's computation and so raises the same [NameError] on every call,
    before any elevation is looked at. *)
Theorem prism_exterior_intersections_raises
    {C : Containment} {I : Intersect} {L : Locate} {S : Segments}
    (self : PrismaticShape.t) (path : LineString) :
  PrismaticShape.exterior_intersections self path
  = Raise (NameError "intersections").
Proof. apply prism_exterior_intersections_stop. Qed.

(** C5.  [intersections] returns no tuple either: on a flat shape the
    attribute [exterior_intersection] it asks [self] for does not exist, on
    a prismatic shape the call to [exterior_intersections] raises. *)
Theorem intersections_raise
    {C : Containment} {I : Intersect} {L : Locate} {S : Segments}
    (flat : ShapePrimitive.t) (prism : PrismaticShape.t)
    (path : LineString) :
  ShapePrimitive.intersections flat path
  = Raise (AttributeError "exterior_intersection")
  /\ PrismaticShape.intersections prism path
     = Raise (NameError "intersections").
Proof.
  split.
  - reflexivity.
  - unfold PrismaticShape.intersections.
    now rewrite prism_exterior_intersections_stop.
Qed.

(** Scenarios c and d of the specification, whatever the collaborators
    answer. *)
Example scenario_c {C : Containment} {I : Intersect} {L : Locate}
    {S : Segments} :
  PrismaticShape.exterior_intersections
    (prism_of solid_square (F64.of_Z (-1)) (F64.of_Z 1))
    (Line3D [pt 5 (-5) 0; pt 5 15 0])
  = Raise (NameError "intersections").
Proof. apply prism_exterior_intersections_stop. Qed.

Example scenario_d {C : Containment} {I : Intersect} {L : Locate}
    {S : Segments} :
  PrismaticShape.exterior_intersections
    (prism_of solid_square (F64.of_Z (-5)) (F64.of_Z 5))
    (Line3D [pt 5 5 (-10); pt 5 5 10])
  = Raise (NameError "intersections").
Proof. apply prism_exterior_intersections_stop. Qed.

(** What the elevation stage does behind that call, on a path with
    elevations and whatever list of candidates it is given: every candidate
    is moved onto the path and kept when its elevation there, widened by
    epsilon, reaches the interval from the top to the base. *)
Lemma check_z_intersection_filter {L : Locate} (self : PrismaticShape.t)
    (path : LineString) (epsilon : float) (candidates : list Geom) :
  has_z path = true ->
  PrismaticShape._epsilon self = DNum epsilon ->
  PrismaticShape._check_z_intersection self path candidates
  = Ok (flat_map
          (fun i =>
             let ip := interpolate path (project path i) in
             if F64.leb (F64.sub (pz ip) epsilon) (PrismaticShape._z0 self)
                && F64.geb (F64.add (pz ip) epsilon)
                     (PrismaticShape._zt self)
             then [GPoint ip] else [])
          candidates).
Proof.
  intros Hz Heps. unfold PrismaticShape._check_z_intersection.
  induction candidates as [|i l IH]; [reflexivity|].
  cbn [for_each flat_map]. rewrite IH.
  unfold PrismaticShape.check_one. rewrite Hz, Heps. cbn [as_number bind].
  now destruct (_ && _).
Qed.

(** A plane crossing is reported only for a fraction strictly between 0 and
    1 whose point lies within the polygon. *)
Lemma plane_crossing_accepted {C : Containment} {S : Segments}
    (self : PrismaticShape.t) (s : LineString) (z_first z_last : float)
    (p : Point) :
  In p (PrismaticShape.plane_crossings self s z_first z_last) ->
  exists f,
    p = interpolate_normalized s f
    /\ F64.gtb f F64.zero = true /\ F64.ltb f F64.one = true
    /\ point_within p (PrismaticShape._shape self) = true
    /\ (f = F64.div (F64.sub (PrismaticShape._z0 self) z_first)
               (F64.sub z_last z_first)
        \/ f = F64.div (F64.sub (PrismaticShape._zt self) z_first)
                 (F64.sub z_last z_first)).
Proof.
  unfold PrismaticShape.plane_crossings. cbv zeta. intros Hin.
  apply in_app_or in Hin. destruct Hin as [Hin|Hin].
  - destruct (_ && _ && _) eqn:T in Hin; [|destruct Hin].
    destruct Hin as [<-|[]]. apply andb_true_iff in T. destruct T as [T W].
    apply andb_true_iff in T. destruct T as [T0 T1].
    eexists. repeat split; eauto.
  - destruct (_ && _ && _) eqn:T in Hin; [|destruct Hin].
    destruct Hin as [<-|[]]. apply andb_true_iff in T. destruct T as [T W].
    apply andb_true_iff in T. destruct T as [T0 T1].
    eexists. repeat split; eauto.
Qed.

(* ===================================================================== *)
(** ** Nearest boundary *)
(* ===================================================================== *)

Section Nearest.
Context {C : Containment} {D : Distance}.

Lemma nearest_boundary_of_nearer (ne nh : Point -> Vec) (p : Point) :
  nearer_of (ne p) (nh p) (ShapePrimitive.nearest_boundary_of ne nh p).
Proof.
  unfold nearer_of, ShapePrimitive.nearest_boundary_of, F64.py_min.
  destruct (F64.ltb (norm (nh p)) (norm (ne p))) eqn:L.
  - repeat split; auto.
    + intros L'. apply F64Facts.ltb_asym in L'. congruence.
    + intros E. apply F64Facts.eqb_not_ltb in E. destruct E. congruence.
    + now apply F64Facts.ltb_leb.
    + now apply F64Facts.leb_refl.
  - repeat split; auto; try discriminate.
    + now apply F64Facts.leb_refl.
    + now apply F64Facts.not_ltb_leb.
Qed.

Lemma set_down_twice (v : Vec) (dz : float) :
  set_down (set_down v dz) dz = set_down v dz.
Proof. reflexivity. Qed.

(** The second overwrite of the down component, in the prismatic
    [nearest_boundary], changes nothing. *)
Lemma prism_nearest_boundary_of (self : PrismaticShape.t) (p : Point) :
  PrismaticShape.nearest_boundary self p
  = ShapePrimitive.nearest_boundary_of
      (PrismaticShape.nearest_exterior self)
      (PrismaticShape.nearest_hole self) p.
Proof.
  unfold PrismaticShape.nearest_boundary,
    ShapePrimitive.nearest_boundary_of.
  destruct (F64.ltb _ _); apply set_down_twice.
Qed.

Lemma nearest_hole_no_holes (self : ShapePrimitive.t) (p : Point) :
  interiors (ShapePrimitive._shape self) = [] ->
  ShapePrimitive.nearest_hole self p = inf13.
Proof. unfold ShapePrimitive.nearest_hole. now intros ->. Qed.

(** The elevation offset is a number for a finite elevation and bounds
    that are numbers. *)
Lemma z_offset_not_nan (z zt z0 : float) :
  F64.is_finite z = true -> F64.is_nan zt = false ->
  F64.is_nan z0 = false ->
  F64.is_nan (F64.sub (F64.clip z zt z0) z) = false.
Proof.
  intros F Nt N0. apply F64Facts.sub_not_nan; auto.
  apply F64Facts.clip_not_nan; auto. now apply F64Facts.finite_not_nan.
Qed.

(** C7.  On a flat and on a prismatic shape alike, [nearest_boundary]
    returns the hole vector when its magnitude is strictly the smaller
    and the exterior vector otherwise (so also on a tie); its magnitude is
    the minimum of the two.  Without holes the hole vector has infinite
    magnitude: [(inf, inf, inf)] on a flat shape, and [(inf, inf, dz)] on
    a prism for a point of finite elevation. *)
Theorem nearest_boundary_is_nearer (flat : ShapePrimitive.t)
    (prism : PrismaticShape.t) (p : Point) :
  nearer_of (ShapePrimitive.nearest_exterior flat p)
            (ShapePrimitive.nearest_hole flat p)
            (ShapePrimitive.nearest_boundary flat p)
  /\ nearer_of (PrismaticShape.nearest_exterior prism p)
               (PrismaticShape.nearest_hole prism p)
               (PrismaticShape.nearest_boundary prism p)
  /\ (interiors (ShapePrimitive._shape flat) = [] ->
      ShapePrimitive.nearest_hole flat p = inf13
      /\ norm (ShapePrimitive.nearest_hole flat p) = F64.inf)
  /\ (interiors (PrismaticShape._shape prism) = [] ->
      F64.is_finite (pz p) = true ->
      F64.is_nan (PrismaticShape._zt prism) = false ->
      F64.is_nan (PrismaticShape._z0 prism) = false ->
      norm (PrismaticShape.nearest_hole prism p) = F64.inf).
Proof.
  split; [|split; [|split]].
  - apply nearest_boundary_of_nearer.
  - rewrite prism_nearest_boundary_of. apply nearest_boundary_of_nearer.
  - intros Hno. rewrite (nearest_hole_no_holes _ _ Hno). split; reflexivity.
  - intros Hno F Nt N0. unfold PrismaticShape.nearest_hole.
    rewrite (nearest_hole_no_holes _ _ Hno).
    unfold PrismaticShape._z_difference, set_down, inf13; cbn [vn ve].
    apply F64Facts.norm_inf_lateral. now apply z_offset_not_nan.
Qed.

End Nearest.

(** At (5, 8, 0) the east side of the square and the east side of the hole
    are both at distance 2: the exterior vector is returned.  The solid
    square has no hole: the hole vector has infinite magnitude. *)
Lemma nearest_boundary_is_nearer_witness :
  ShapePrimitive.nearest_boundary (flat_of holed_square) (pt 5 8 0)
  = ShapePrimitive.nearest_exterior (flat_of holed_square) (pt 5 8 0)
  /\ norm (PrismaticShape.nearest_hole
             (prism_of solid_square (F64.of_Z (-5)) (F64.of_Z 5))
             (pt 5 8 0)) = F64.inf.
Proof.
  pose proof (nearest_boundary_is_nearer (flat_of holed_square)
                (prism_of solid_square (F64.of_Z (-5)) (F64.of_Z 5))
                (pt 5 8 0)) as (Hflat & _ & _ & Hprism).
  split.
  - destruct Hflat as (_ & _ & Htie & _). apply Htie. vm_compute. reflexivity.
  - apply Hprism; reflexivity.
Defined.

(* ===================================================================== *)
(** ** Nearest vectors of a prism *)
(* ===================================================================== *)

(** C3, as stated, fails for [nearest_hole].  The point (5, 5, 0) lies
    within the solid square, yet the hole vector of the prism over it has
    infinite north and east components; the point (3, 4, 0) lies within the
    hole of the holed square, yet the hole vector points one unit back to
    the hole's outline. *)
Lemma nearest_hole_lateral_not_zero :
  point_within (pt 5 5 0) solid_square = true
  /\ PrismaticShape.nearest_hole
       (prism_of solid_square (F64.of_Z (-5)) (F64.of_Z 5)) (pt 5 5 0)
     = mkVec F64.inf F64.inf F64.zero
  /\ (exists b, Rect.bounds square_hole = Some b
                /\ Rect.strictly_inside (F64.of_Z 3) (F64.of_Z 4) b = true)
  /\ PrismaticShape.nearest_hole
       (prism_of holed_square (F64.of_Z (-5)) (F64.of_Z 5)) (pt 3 4 0)
     = mkVec (F64.of_Z (-1)) F64.zero F64.zero.
Proof.
  repeat split; try reflexivity.
  eexists. split; reflexivity.
Qed.

Section PrismVectors.
Context {C : Containment} {D : Distance}.

(** C3, amended.  The down component of the three nearest-vectors of a
    prism is [clip(z, top, bottom) - z]: a zero for a finite [z] within
    [[top, bottom]], [top - z] below the top and [bottom - z] above the
    base (with [top <= bottom]).  For a point within the polygon
    [nearest_exterior] has zero north and east components, and so has
    [nearest_boundary]: the hole vector has the same down component and is
    never strictly shorter.  The north and east components of
    [nearest_hole] are those of the flat shape's hole vector, never
    zeroed. *)
Theorem prism_nearest_vectors (self : PrismaticShape.t) (point : Point) :
  let z := pz point in
  let top := PrismaticShape._zt self in
  let bottom := PrismaticShape._z0 self in
  let dz := F64.sub (F64.clip z top bottom) z in
  let r_exterior := PrismaticShape.nearest_exterior self point in
  let r_hole := PrismaticShape.nearest_hole self point in
  let r_boundary := PrismaticShape.nearest_boundary self point in
  let flat_hole :=
    ShapePrimitive.nearest_hole (PrismaticShape.base self) point in
  (vd r_exterior = dz /\ vd r_hole = dz /\ vd r_boundary = dz)
  /\ (point_within point (PrismaticShape._shape self) = true ->
      vn r_exterior = F64.zero /\ ve r_exterior = F64.zero)
  /\ (vn r_hole = vn flat_hole /\ ve r_hole = ve flat_hole)
  /\ (point_within point (PrismaticShape._shape self) = true ->
      vn r_boundary = F64.zero /\ ve r_boundary = F64.zero)
  /\ (F64.is_finite z = true -> F64.leb top z = true ->
      F64.leb z bottom = true -> F64.is_zero dz = true)
  /\ (F64.ltb z top = true -> F64.leb top bottom = true ->
      dz = F64.sub top z)
  /\ (F64.ltb bottom z = true -> F64.leb top bottom = true ->
      dz = F64.sub bottom z).
Proof.
  cbv zeta.
  assert (Hext : point_within point (PrismaticShape._shape self) = true ->
                 PrismaticShape.nearest_exterior self point
                 = mkVec F64.zero F64.zero
                     (F64.sub (F64.clip (pz point)
                                 (PrismaticShape._zt self)
                                 (PrismaticShape._z0 self)) (pz point))).
  { intros Hin. unfold PrismaticShape.nearest_exterior. now rewrite Hin. }
  repeat match goal with |- _ /\ _ => split end; try reflexivity.
  - intros Hin. rewrite (Hext Hin). split; reflexivity.
  - intros Hin. unfold PrismaticShape.nearest_boundary,
      ShapePrimitive.nearest_boundary_of. rewrite (Hext Hin).
    unfold PrismaticShape.nearest_hole, PrismaticShape._z_difference,
      set_down.
    rewrite F64Round.norm_lateral_not_shorter. split; reflexivity.
  - intros F Ht Hb. now apply F64Facts.clip_inside_zero.
  - intros Hz Hord. now apply F64Facts.clip_below.
  - intros Hz Hord. now apply F64Facts.clip_above.
Qed.

End PrismVectors.

(** The square prism between -5 and 5: at (5, 5, 7), under its base, the
    exterior vector is (0, 0, -2); at (5, 5, 0) the down component is a
    zero.  With the hole from (2, 2) to (6, 6), at (7, 8, 7), one unit from
    the hole, the boundary vector has no north component either. *)
Lemma prism_nearest_vectors_witness :
  vn (PrismaticShape.nearest_exterior
        (prism_of solid_square (F64.of_Z (-5)) (F64.of_Z 5)) (pt 5 5 7))
  = F64.zero
  /\ vn (PrismaticShape.nearest_boundary
           (prism_of holed_square (F64.of_Z (-5)) (F64.of_Z 5)) (pt 7 8 7))
     = F64.zero
  /\ F64.sub (F64.clip (F64.of_Z 7) (F64.of_Z (-5)) (F64.of_Z 5))
       (F64.of_Z 7)
     = F64.sub (F64.of_Z 5) (F64.of_Z 7)
  /\ F64.is_zero
       (F64.sub (F64.clip (F64.of_Z 0) (F64.of_Z (-5)) (F64.of_Z 5))
          (F64.of_Z 0)) = true.
Proof.
  pose proof (prism_nearest_vectors
                (prism_of solid_square (F64.of_Z (-5)) (F64.of_Z 5))
                (pt 5 5 7)) as (_ & Hext & _ & _ & _ & _ & Habove).
  pose proof (prism_nearest_vectors
                (prism_of holed_square (F64.of_Z (-5)) (F64.of_Z 5))
                (pt 7 8 7)) as (_ & _ & _ & Hbound & _ & _ & _).
  pose proof (prism_nearest_vectors
                (prism_of solid_square (F64.of_Z (-5)) (F64.of_Z 5))
                (pt 5 5 0)) as (_ & _ & _ & _ & Hin & _ & _).
  split; [|split; [|split]].
  - apply Hext. reflexivity.
  - apply Hbound. reflexivity.
  - apply Habove; reflexivity.
  - apply Hin; reflexivity.
Defined.

(* ===================================================================== *)
(** ** The unbounded prism against the flat shape *)
(* ===================================================================== *)

(** C8, as stated, fails.  The prism built over the solid square with no
    elevation given is unbounded, and at (5, 5, 0) its hole vector is
    [(inf, inf, 0)] where the flat shape's is [(inf, inf, inf)]. *)
Lemma unbounded_prism_differs :
  PrismaticShape.__init__ (fun _ => None) "obstacle" (Some solid_square)
    None None None
  = Ok (unbounded_prism (flat_of solid_square))
  /\ ShapePrimitive.nearest_hole (flat_of solid_square) (pt 5 5 0)
     = mkVec F64.inf F64.inf F64.inf
  /\ PrismaticShape.nearest_hole (unbounded_prism (flat_of solid_square))
       (pt 5 5 0)
     = mkVec F64.inf F64.inf F64.zero
  /\ ShapePrimitive.nearest_hole (flat_of solid_square) (pt 5 5 0)
     <> PrismaticShape.nearest_hole
          (unbounded_prism (flat_of solid_square)) (pt 5 5 0).
Proof.
  split; [apply prism_init_defaults|].
  split; [reflexivity|]. split; [reflexivity|]. discriminate.
Qed.

Section Unbounded.
Context {C : Containment} {D : Distance} {I : Intersect}.

Lemma all_above_neg_inf (zs : list float) :
  Forall (fun z => F64.is_finite z = true) zs ->
  forallb (fun zi => F64.gtb zi F64.neg_inf) zs = true.
Proof.
  induction 1 as [|z zs Hz _ IH]; cbn; auto.
  unfold F64.gtb. change SFltb with F64.ltb.
  now rewrite (F64Facts.neg_inf_ltb z Hz).
Qed.

Lemma all_below_inf (zs : list float) :
  Forall (fun z => F64.is_finite z = true) zs ->
  forallb (fun zi => F64.ltb zi F64.inf) zs = true.
Proof.
  induction 1 as [|z zs Hz _ IH]; cbn; auto.
  now rewrite (F64Facts.ltb_inf z Hz).
Qed.

(** C8, amended.  Over the same polygon, the unbounded prism answers
    [is_point_inside] (points of finite elevation), [is_path_inside]
    (paths of finite elevations) and [hole_intersections] as the flat
    shape does.  Its nearest-vectors are not the flat shape's: their down
    component is always a zero, and [nearest_exterior] has zero north and
    east components for a point within the polygon. *)
Theorem unbounded_prism_queries (flat : ShapePrimitive.t) (point : Point)
    (xyz : list Point) :
  let prism := unbounded_prism flat in
  (F64.is_finite (pz point) = true ->
     PrismaticShape.is_point_inside prism point
     = ShapePrimitive.is_point_inside flat point
     /\ PrismaticShape.nearest_hole prism point
        = set_down (ShapePrimitive.nearest_hole flat point) F64.zero
     /\ PrismaticShape.nearest_exterior prism point
        = set_down
            (if point_within point (ShapePrimitive._shape flat)
             then zeros13
             else ShapePrimitive.nearest_exterior flat point)
            F64.zero
     /\ vd (PrismaticShape.nearest_boundary prism point) = F64.zero)
  /\ (Forall (fun z => F64.is_finite z = true)
        (PrismaticShape.elevations (Line3D xyz)) ->
      PrismaticShape.is_path_inside prism (Line3D xyz)
      = Ok (ShapePrimitive.is_path_inside flat (Line3D xyz)))
  /\ PrismaticShape.hole_intersections prism (Line3D xyz)
     = ShapePrimitive.hole_intersections flat (Line3D xyz).
Proof.
  cbv zeta. split; [|split].
  - intros F.
    assert (Hdz : F64.sub (F64.clip (pz point) F64.neg_inf F64.inf)
                    (pz point) = F64.zero).
    { rewrite (F64Facts.clip_unbounded _ F). now apply F64Facts.sub_self. }
    repeat split.
    + unfold PrismaticShape.is_point_inside, unbounded_prism, F64.gtb;
        cbn [PrismaticShape.base PrismaticShape._zt PrismaticShape._z0].
      change SFltb with F64.ltb.
      rewrite (F64Facts.neg_inf_ltb _ F), (F64Facts.ltb_inf _ F).
      now rewrite !andb_true_r.
    + unfold PrismaticShape.nearest_hole, PrismaticShape._z_difference,
        unbounded_prism;
        cbn [PrismaticShape.base PrismaticShape._zt PrismaticShape._z0].
      now rewrite Hdz.
    + unfold PrismaticShape.nearest_exterior, PrismaticShape._z_difference,
        PrismaticShape._shape, unbounded_prism;
        cbn [PrismaticShape.base PrismaticShape._zt PrismaticShape._z0].
      now rewrite Hdz.
    + unfold PrismaticShape.nearest_boundary, PrismaticShape._z_difference,
        unbounded_prism;
        cbn [PrismaticShape.base PrismaticShape._zt PrismaticShape._z0 vd
             set_down].
      exact Hdz.
  - intros F. unfold PrismaticShape.is_path_inside, unbounded_prism;
      cbn [PrismaticShape.base PrismaticShape._zt PrismaticShape._z0 has_z].
    rewrite (all_above_neg_inf _ F), (all_below_inf _ F).
    now rewrite !andb_true_r.
  - reflexivity.
Qed.

End Unbounded.

(** At (5, 5, 0) inside the solid square and along the level path from
    (2, 2, 0) to (8, 8, 0). *)
Lemma unbounded_prism_queries_witness :
  PrismaticShape.is_point_inside (unbounded_prism (flat_of solid_square))
    (pt 5 5 0)
  = ShapePrimitive.is_point_inside (flat_of solid_square) (pt 5 5 0)
  /\ PrismaticShape.is_path_inside (unbounded_prism (flat_of solid_square))
       (Line3D [pt 2 2 0; pt 8 8 0])
     = Ok (ShapePrimitive.is_path_inside (flat_of solid_square)
             (Line3D [pt 2 2 0; pt 8 8 0])).
Proof.
  pose proof (unbounded_prism_queries (flat_of solid_square) (pt 5 5 0)
                [pt 2 2 0; pt 8 8 0]) as (Hpoint & Hpath & _).
  split.
  - apply Hpoint. reflexivity.
  - apply Hpath. repeat constructor.
Defined.

(* ===================================================================== *)
(** ** Plane crossings of a level segment *)
(* ===================================================================== *)

Section LevelSegments.
Context {C : Containment} {S : Segments}.

(** Over a span that is a zero or a NaN, no fraction passes the test
    [f > 0.0 and f < 1.0]. *)
Lemma fraction_rejected (x span : float) :
  F64.is_zero span = true \/ F64.is_nan span = true ->
  F64.is_finite (F64.div x span) = false
  /\ F64.gtb (F64.div x span) F64.zero
     && F64.ltb (F64.div x span) F64.one = false.
Proof.
  intros H. pose proof (F64Facts.div_by_zero x span H) as F.
  split; [exact F|]. now apply F64Facts.not_finite_outside.
Qed.

Lemma plane_crossings_level (self : PrismaticShape.t) (s : LineString)
    (z_first z_last : float) :
  F64.eqb z_first z_last = true ->
  PrismaticShape.plane_crossings self s z_first z_last = [].
Proof.
  intros E. unfold PrismaticShape.plane_crossings. cbv zeta.
  pose proof (proj2 (F64Facts.sub_equal _ _ E)) as Hspan.
  destruct (fraction_rejected
              (F64.sub (PrismaticShape._z0 self) z_first) _ Hspan)
    as [_ ->].
  destruct (fraction_rejected
              (F64.sub (PrismaticShape._zt self) z_first) _ Hspan)
    as [_ ->].
  reflexivity.
Qed.

Lemma z_intersection_one_level (self : PrismaticShape.t)
    (s : LineString) :
  level s -> PrismaticShape.z_intersection_one self s = Ok [].
Proof.
  intros (a & b & -> & E). unfold PrismaticShape.z_intersection_one.
  destruct (negb _); [reflexivity|].
  now rewrite (plane_crossings_level self _ _ _ E).
Qed.

Lemma for_each_nothing {A B : Type} (body : A -> result (list B))
    (l : list A) :
  Forall (fun a => body a = Ok []) l -> for_each body l = Ok [].
Proof.
  induction 1 as [|a l Ha _ IH]; cbn; [reflexivity|].
  now rewrite Ha, IH.
Qed.

(** C10.  On a segment whose two elevations compare equal the elevation
    span is a zero when they are finite (a NaN when they are infinite),
    both interpolation fractions are a division by that span and are not
    finite, neither passes the strict test [0 < f < 1], and the segment
    yields no crossing and no exception; a path cut into such segments
    yields the empty list. *)
Theorem level_segment_no_crossing (self : PrismaticShape.t)
    (a b : Point) (xyz : list Point) :
  F64.eqb (pz a) (pz b) = true ->
  let s := Line3D [a; b] in
  let span := F64.sub (pz b) (pz a) in
  let f_0 := F64.div (F64.sub (PrismaticShape._z0 self) (pz a)) span in
  let f_t := F64.div (F64.sub (PrismaticShape._zt self) (pz a)) span in
  (F64.is_finite (pz a) = true -> F64.is_zero span = true)
  /\ F64.is_finite f_0 = false
  /\ F64.is_finite f_t = false
  /\ F64.gtb f_0 F64.zero && F64.ltb f_0 F64.one = false
  /\ F64.gtb f_t F64.zero && F64.ltb f_t F64.one = false
  /\ PrismaticShape.z_intersection_one self s = Ok []
  /\ (forall segments,
        split (Line3D xyz) (tl xyz) = Ok segments ->
        Forall level segments ->
        PrismaticShape._z_intersection self (Line3D xyz) = Ok []).
Proof.
  intros E. cbv zeta.
  pose proof (F64Facts.sub_equal _ _ E) as [Hzero Hspan].
  destruct (fraction_rejected
              (F64.sub (PrismaticShape._z0 self) (pz a)) _ Hspan)
    as [F0 T0].
  destruct (fraction_rejected
              (F64.sub (PrismaticShape._zt self) (pz a)) _ Hspan)
    as [Ft Tt].
  repeat match goal with |- _ /\ _ => split end; auto.
  - apply z_intersection_one_level. exists a, b. auto.
  - intros segments Hcut Hall. unfold PrismaticShape._z_intersection.
    rewrite Hcut. cbn [bind]. apply for_each_nothing.
    eapply Forall_impl; [|exact Hall].
    intros s Hs. now apply z_intersection_one_level.
Qed.

End LevelSegments.

(** Scenario c: the level path from (5, -5, 0) to (5, 15, 0) across the
    square prism between -1 and 1. *)
Lemma level_segment_no_crossing_witness :
  PrismaticShape.z_intersection_one
    (prism_of solid_square (F64.of_Z (-1)) (F64.of_Z 1))
    (Line3D [pt 5 (-5) 0; pt 5 15 0]) = Ok []
  /\ PrismaticShape._z_intersection
       (prism_of solid_square (F64.of_Z (-1)) (F64.of_Z 1))
       (Line3D [pt 5 (-5) 0; pt 5 15 0]) = Ok [].
Proof.
  pose proof (level_segment_no_crossing
                (prism_of solid_square (F64.of_Z (-1)) (F64.of_Z 1))
                (pt 5 (-5) 0) (pt 5 15 0) [pt 5 (-5) 0; pt 5 15 0]
                eq_refl) as (_ & _ & _ & _ & _ & Hone & Hall).
  split; [exact Hone|].
  apply (Hall [Line3D [pt 5 (-5) 0; pt 5 15 0]]); [reflexivity|].
  repeat constructor.
  exists (pt 5 (-5) 0), (pt 5 15 0). split; reflexivity.
Defined.



(* ===================================================================== *)
(** ** Construction from a dictionary *)
(* ===================================================================== *)

(** X1.  A definition without a shape raises [KeyError('shape')] from both
    classes; a prism's definition with a polygon but no [z0] raises
    [KeyError('z0')], and with a numeric [z0] but no [zt] raises
    [KeyError('zt')]. *)
Theorem definition_missing_keys (parse : string -> option float)
    (digest : string) (definition : gmap string DVal) (poly : Polygon)
    (z0 : float) :
  (definition !! "shape"%string = None ->
   ShapePrimitive.define_from_dictionary digest definition
   = Raise (KeyError "shape")
   /\ PrismaticShape.define_from_dictionary parse digest definition
      = Raise (KeyError "shape"))
  /\ (definition !! "shape"%string = Some (DShape poly) ->
      definition !! "z0"%string = None ->
      PrismaticShape.define_from_dictionary parse digest definition
      = Raise (KeyError "z0"))
  /\ (definition !! "shape"%string = Some (DShape poly) ->
      definition !! "z0"%string = Some (DNum z0) ->
      definition !! "zt"%string = None ->
      PrismaticShape.define_from_dictionary parse digest definition
      = Raise (KeyError "zt")).
Proof.
  unfold PrismaticShape.define_from_dictionary,
    ShapePrimitive.define_from_dictionary, getitem.
  split; [|split].
  - intros ->. split; reflexivity.
  - intros -> ->. reflexivity.
  - intros -> -> ->. reflexivity.
Qed.

Lemma definition_missing_keys_witness :
  PrismaticShape.define_from_dictionary (fun _ => None) "prism"
    (<[ "shape"%string := DShape solid_square ]>
       {[ "z0"%string := DNum (F64.of_Z 5) ]})
  = Raise (KeyError "zt").
Proof.
  apply (proj2 (proj2 (definition_missing_keys (fun _ => None) "prism"
                         (<[ "shape"%string := DShape solid_square ]>
                            {[ "z0"%string := DNum (F64.of_Z 5) ]})
                         solid_square (F64.of_Z 5))));
    vm_compute; reflexivity.
Defined.

(** X2.  From a definition holding a polygon the flat shape is always
    built: it keeps the polygon, the id and the epsilon of the definition,
    and falls back to the synthesised digest and to [1e-6] for the ones
    that are absent.  With an id in the definition the digest (and so the
    random draw behind it) plays no part at all. *)
Theorem flat_definition_attributes (digest : string)
    (definition : gmap string DVal) (poly : Polygon) :
  (definition !! "shape"%string = Some (DShape poly) ->
   ShapePrimitive.define_from_dictionary digest definition
   = Ok (ShapePrimitive.mk poly
           (default (DStr digest) (definition !! "id"%string))
           (default (DNum F64.micro) (definition !! "epsilon"%string))))
  /\ (is_Some (definition !! "id"%string) ->
      forall other : string,
        ShapePrimitive.define_from_dictionary digest definition
        = ShapePrimitive.define_from_dictionary other definition).
Proof.
  unfold ShapePrimitive.define_from_dictionary, getitem. split.
  - intros ->. cbn.
    destruct (definition !! "id"%string), (definition !! "epsilon"%string);
      reflexivity.
  - intros [v ->] other. reflexivity.
Qed.

Lemma flat_definition_attributes_witness :
  ShapePrimitive.define_from_dictionary "digest"
    (<[ "shape"%string := DShape solid_square ]>
       {[ "id"%string := DStr "tower" ]})
  = Ok (ShapePrimitive.mk solid_square (DStr "tower") (DNum F64.micro))
  /\ ShapePrimitive.define_from_dictionary "digest"
       (<[ "shape"%string := DShape solid_square ]>
          {[ "id"%string := DStr "tower" ]})
     = ShapePrimitive.define_from_dictionary "another"
         (<[ "shape"%string := DShape solid_square ]>
            {[ "id"%string := DStr "tower" ]}).
Proof.
  pose proof (flat_definition_attributes "digest"
                (<[ "shape"%string := DShape solid_square ]>
                   {[ "id"%string := DStr "tower" ]}) solid_square)
    as [Hbuild Hid].
  split.
  - apply Hbuild. vm_compute. reflexivity.
  - apply Hid. exists (DStr "tower"). vm_compute. reflexivity.
Defined.

(** X3.  Built directly from a polygon, without a dictionary, both shapes
    are always constructed: the id is the digest, epsilon is [1e-6], and an
    elevation that is not given is [inf] for the base and [-inf] for the
    top.  When a dictionary is passed the other arguments are ignored. *)
Theorem direct_construction (parse : string -> option float)
    (digest : string) (poly : Polygon) (shape : option Polygon)
    (z0 zt : option float) (definition : gmap string DVal) :
  ShapePrimitive.__init__ digest (Some poly) None
  = Ok (ShapePrimitive.mk poly (DStr digest) (DNum F64.micro))
  /\ PrismaticShape.__init__ parse digest (Some poly) z0 zt None
     = Ok (PrismaticShape.mk
             (ShapePrimitive.mk poly (DStr digest) (DNum F64.micro))
             (default F64.inf z0) (default F64.neg_inf zt))
  /\ PrismaticShape.__init__ parse digest shape z0 zt (Some definition)
     = PrismaticShape.__init__ parse digest None None None
         (Some definition).
Proof.
  split; [|split].
  - unfold ShapePrimitive.__init__, ShapePrimitive.define_from_dictionary,
      getitem.
    now simplify_map_eq.
  - unfold PrismaticShape.__init__, PrismaticShape.define_from_dictionary,
      ShapePrimitive.define_from_dictionary, getitem.
    destruct z0, zt; now simplify_map_eq.
  - reflexivity.
Qed.

(** X4.  A prism's construction starts with the flat shape's, on the same
    dictionary: when that fails the prism fails with the same exception,
    and a prism that is built holds exactly the flat shape built from the
    dictionary. *)
Theorem prism_definition_extends_flat (parse : string -> option float)
    (digest : string) (definition : gmap string DVal) :
  (forall e,
     ShapePrimitive.define_from_dictionary digest definition = Raise e ->
     PrismaticShape.define_from_dictionary parse digest definition
     = Raise e)
  /\ (forall prism,
        PrismaticShape.define_from_dictionary parse digest definition
        = Ok prism ->
        ShapePrimitive.define_from_dictionary digest definition
        = Ok (PrismaticShape.base prism)).
Proof.
  unfold PrismaticShape.define_from_dictionary.
  destruct (ShapePrimitive.define_from_dictionary digest definition)
    as [flat|e0].
  - split; [discriminate|]. cbn [bind]. intros prism.
    destruct (getitem definition "z0") as [v0|]; [|discriminate].
    cbn [bind].
    destruct (PrismaticShape.to_float parse v0); [|discriminate].
    cbn [bind].
    destruct (getitem definition "zt") as [vt|]; [|discriminate].
    cbn [bind].
    destruct (PrismaticShape.to_float parse vt); [|discriminate].
    cbn [bind]. intros E. inversion E. reflexivity.
  - split; [intros e E; inversion E; reflexivity | discriminate].
Qed.

Lemma prism_definition_extends_flat_witness :
  ShapePrimitive.define_from_dictionary "prism"
    (<[ "shape"%string := DShape solid_square ]>
       (<[ "z0"%string := DNum (F64.of_Z 5) ]>
          {[ "zt"%string := DNum (F64.of_Z (-5)) ]}))
  = Ok (PrismaticShape.base
          (PrismaticShape.mk
             (ShapePrimitive.mk solid_square (DStr "prism")
                (DNum F64.micro))
             (F64.of_Z 5) (F64.of_Z (-5)))).
Proof.
  apply (proj2 (prism_definition_extends_flat (fun _ => None) "prism"
                  (<[ "shape"%string := DShape solid_square ]>
                     (<[ "z0"%string := DNum (F64.of_Z 5) ]>
                        {[ "zt"%string := DNum (F64.of_Z (-5)) ]})))).
  vm_compute. reflexivity.
Defined.

(* ===================================================================== *)
(** ** The vector to the nearest hole *)
(* ===================================================================== *)

Section Holes.
Context {C : Containment} {D : Distance}.

(** The loop over the holes, from any vector whose norm is a number: the
    result is that vector or the vector of one of the holes, its norm is a
    number not above the start's, and no hole's vector is strictly
    shorter. *)
Lemma nearer_hole_fold (point : Point) (holes : list Ring) :
  forall start : Vec,
    F64.is_nan (norm start) = false ->
    let r := fold_left (ShapePrimitive.nearer_hole point) holes start in
    (r = start \/ exists h, In h holes /\ r = point_line_distance point h)
    /\ F64.is_nan (norm r) = false
    /\ F64.leb (norm r) (norm start) = true
    /\ Forall (fun h => F64.ltb (norm (point_line_distance point h))
                                (norm r) = false) holes.
Proof.
  induction holes as [|h holes IH]; intros start N; cbv zeta.
  - cbn. repeat split; auto. now apply F64Facts.leb_refl.
  - cbn [fold_left].
    assert (Hstep :
      F64.is_nan (norm (ShapePrimitive.nearer_hole point start h)) = false
      /\ F64.leb (norm (ShapePrimitive.nearer_hole point start h))
                 (norm start) = true
      /\ F64.ltb (norm (point_line_distance point h))
                 (norm (ShapePrimitive.nearer_hole point start h)) = false
      /\ (ShapePrimitive.nearer_hole point start h = start
          \/ ShapePrimitive.nearer_hole point start h
             = point_line_distance point h)).
    { unfold ShapePrimitive.nearer_hole.
      destruct (F64.ltb (norm (point_line_distance point h)) (norm start))
        eqn:L.
      - repeat split; auto.
        + now destruct (F64Facts.ltb_not_nan _ _ L).
        + now apply F64Facts.ltb_leb.
        + apply F64Facts.ltb_irrefl.
      - repeat split; auto. now apply F64Facts.leb_refl. }
    destruct Hstep as (N' & Hle & Hh & Hwhich).
    specialize (IH _ N'). cbv zeta in IH.
    destruct IH as (Hfrom & Nr & Hr & Hall).
    repeat split; auto.
    + destruct Hfrom as [->|(h' & Hin & ->)].
      * destruct Hwhich as [->| ->]; [now left|].
        right. exists h. split; [now left|reflexivity].
      * right. exists h'. split; [now right|reflexivity].
    + eapply F64More.leb_trans; eauto.
    + constructor; auto.
      apply F64Facts.not_true_false. intros L.
      pose proof (F64Facts.ltb_leb_trans _ _ _ L Hr) as L'. congruence.
Qed.

(** X5.  [nearest_hole] of a flat shape returns the vector of one of the
    holes, or the infinite sentinel; its norm is a number, and no hole's
    vector is strictly shorter than the one returned. *)
Theorem nearest_hole_is_shortest (self : ShapePrimitive.t) (point : Point) :
  let r := ShapePrimitive.nearest_hole self point in
  (r = inf13
   \/ exists h, In h (interiors (ShapePrimitive._shape self))
                /\ r = point_line_distance point h)
  /\ F64.is_nan (norm r) = false
  /\ Forall (fun h => F64.ltb (norm (point_line_distance point h))
                              (norm r) = false)
       (interiors (ShapePrimitive._shape self)).
Proof.
  cbv zeta. unfold ShapePrimitive.nearest_hole.
  destruct (nearer_hole_fold point (interiors (ShapePrimitive._shape self))
              inf13 eq_refl) as (Hfrom & N & _ & Hall).
  auto.
Qed.

(** X6.  On a shape without holes, flat or prismatic, [nearest_boundary]
    is [nearest_exterior]. *)
Theorem no_holes_boundary_is_exterior (flat : ShapePrimitive.t)
    (prism : PrismaticShape.t) (point : Point) :
  (interiors (ShapePrimitive._shape flat) = [] ->
   ShapePrimitive.nearest_boundary flat point
   = ShapePrimitive.nearest_exterior flat point)
  /\ (interiors (PrismaticShape._shape prism) = [] ->
      PrismaticShape.nearest_boundary prism point
      = PrismaticShape.nearest_exterior prism point).
Proof.
  split; intros Hno.
  - unfold ShapePrimitive.nearest_boundary,
      ShapePrimitive.nearest_boundary_of.
    rewrite (nearest_hole_no_holes _ _ Hno).
    change (norm inf13) with F64.inf. now rewrite F64More.inf_ltb.
  - rewrite prism_nearest_boundary_of.
    unfold ShapePrimitive.nearest_boundary_of.
    assert (L : F64.ltb (norm (PrismaticShape.nearest_hole prism point))
                  (norm (PrismaticShape.nearest_exterior prism point))
                = false).
    { unfold PrismaticShape.nearest_hole.
      rewrite (nearest_hole_no_holes _ _ Hno).
      unfold PrismaticShape._z_difference, set_down, inf13; cbn [vn ve].
      destruct (F64More.norm_inf_or_nan
                  (F64.sub (F64.clip (pz point) (PrismaticShape._zt prism)
                              (PrismaticShape._z0 prism)) (pz point)))
        as [-> | N].
      - apply F64More.inf_ltb.
      - now apply F64More.ltb_nan_l. }
    now rewrite L.
Qed.

(** X15.  For a point within the polygon whose finite elevation lies
    between the top and the base, [nearest_exterior] and [nearest_boundary]
    of the prism are the same vector, with zero north and east components
    and a zero down component: no hole vector is preferred to it. *)
Theorem inside_prism_nearest_is_zero (self : PrismaticShape.t)
    (point : Point) :
  point_within point (PrismaticShape._shape self) = true ->
  F64.is_finite (pz point) = true ->
  F64.leb (PrismaticShape._zt self) (pz point) = true ->
  F64.leb (pz point) (PrismaticShape._z0 self) = true ->
  let r := PrismaticShape.nearest_boundary self point in
  r = PrismaticShape.nearest_exterior self point
  /\ vn r = F64.zero /\ ve r = F64.zero /\ F64.is_zero (vd r) = true.
Proof.
  intros Hin F Ht Hb. cbv zeta.
  pose proof (F64Facts.clip_inside_zero _ _ _ F Ht Hb) as Hdz.
  assert (Hext : PrismaticShape.nearest_exterior self point
                 = mkVec F64.zero F64.zero
                     (F64.sub (F64.clip (pz point)
                                 (PrismaticShape._zt self)
                                 (PrismaticShape._z0 self)) (pz point))).
  { unfold PrismaticShape.nearest_exterior. now rewrite Hin. }
  rewrite prism_nearest_boundary_of.
  unfold ShapePrimitive.nearest_boundary_of.
  rewrite Hext, (F64More.norm_zero_down _ Hdz).
  rewrite (F64More.norm_not_negative _ F64.zero eq_refl).
  repeat split; auto.
Qed.

End Holes.

Lemma no_holes_boundary_is_exterior_witness :
  ShapePrimitive.nearest_boundary (flat_of solid_square) (pt 5 8 0)
  = ShapePrimitive.nearest_exterior (flat_of solid_square) (pt 5 8 0)
  /\ PrismaticShape.nearest_boundary
       (prism_of solid_square (F64.of_Z (-5)) (F64.of_Z 5)) (pt 5 8 9)
     = PrismaticShape.nearest_exterior
         (prism_of solid_square (F64.of_Z (-5)) (F64.of_Z 5)) (pt 5 8 9).
Proof.
  pose proof (no_holes_boundary_is_exterior (flat_of solid_square)
                (prism_of solid_square (F64.of_Z (-5)) (F64.of_Z 5))
                (pt 5 8 0)) as [Hflat _].
  pose proof (no_holes_boundary_is_exterior (flat_of solid_square)
                (prism_of solid_square (F64.of_Z (-5)) (F64.of_Z 5))
                (pt 5 8 9)) as [_ Hprism].
  split; [apply Hflat | apply Hprism]; reflexivity.
Defined.

(** The point (7, 8, 0) lies within the holed square, outside its hole and
    between the planes. *)
Lemma inside_prism_nearest_is_zero_witness :
  PrismaticShape.nearest_boundary
    (prism_of holed_square (F64.of_Z (-5)) (F64.of_Z 5)) (pt 7 8 0)
  = mkVec F64.zero F64.zero F64.zero.
Proof.
  assert (H : PrismaticShape.nearest_boundary
                (prism_of holed_square (F64.of_Z (-5)) (F64.of_Z 5))
                (pt 7 8 0)
              = PrismaticShape.nearest_exterior
                  (prism_of holed_square (F64.of_Z (-5)) (F64.of_Z 5))
                  (pt 7 8 0)).
  { apply (inside_prism_nearest_is_zero
             (prism_of holed_square (F64.of_Z (-5)) (F64.of_Z 5))
             (pt 7 8 0)); reflexivity. }
  rewrite H. reflexivity.
Defined.

(* ===================================================================== *)
(** ** Intersections with the holes *)
(* ===================================================================== *)

Section HoleIntersections.
Context {I : Intersect}.

Lemma one_hole_intersections_tuple (path : LineString) (hole : Ring) :
  intersection path hole <> GLineString [] ->
  ShapePrimitive.one_hole_intersections path hole
  = Ok [hole_tuple (intersection path hole)].
Proof.
  intros H. unfold ShapePrimitive.one_hole_intersections.
  destruct (intersection path hole) as [p|[|first l]|ps|gs];
    try reflexivity.
  now contradiction H.
Qed.

Lemma one_hole_intersections_empty_curve (path : LineString) (hole : Ring) :
  intersection path hole = GLineString [] ->
  ShapePrimitive.one_hole_intersections path hole
  = Raise (IndexError "index 0 is out of bounds").
Proof.
  intros H. unfold ShapePrimitive.one_hole_intersections. now rewrite H.
Qed.

Lemma for_each_singletons {A B : Type} (body : A -> result (list B))
    (f : A -> B) (l : list A) :
  Forall (fun a => body a = Ok [f a]) l -> for_each body l = Ok (map f l).
Proof.
  induction 1 as [|a l Ha _ IH]; cbn; [reflexivity|].
  now rewrite Ha, IH.
Qed.

Lemma for_each_raises {A B : Type} (body : A -> result (list B))
    (e : exn) (l : list A) :
  Forall (fun a => body a = Raise e \/ exists out, body a = Ok out) l ->
  Exists (fun a => body a = Raise e) l ->
  for_each body l = Raise e.
Proof.
  induction 1 as [|a l Ha _ IH]; intros Hex; [inversion Hex|].
  cbn [for_each].
  destruct Ha as [-> | (out & Ha)]; [reflexivity|].
  rewrite Ha. cbn [bind].
  inversion Hex as [? ? Hhead | ? ? Htail]; subst; [congruence|].
  now rewrite (IH Htail).
Qed.

(** X7.  [hole_intersections] returns one tuple per hole, in the order of
    the holes: the point alone, the first vertex of a curve, the parts of a
    multi-part result.  It raises [IndexError] exactly when the
    intersection with some hole is an empty curve. *)
Theorem hole_intersections_tuples (self : ShapePrimitive.t)
    (path : LineString) :
  let holes := interiors (ShapePrimitive._shape self) in
  (Forall (fun h => intersection path h <> GLineString []) holes ->
   ShapePrimitive.hole_intersections self path
   = Ok (map (fun h => hole_tuple (intersection path h)) holes))
  /\ (Exists (fun h => intersection path h = GLineString []) holes ->
      ShapePrimitive.hole_intersections self path
      = Raise (IndexError "index 0 is out of bounds")).
Proof.
  cbv zeta. unfold ShapePrimitive.hole_intersections. split.
  - intros Hall. apply for_each_singletons.
    eapply Forall_impl; [|exact Hall].
    intros h Hh. now apply one_hole_intersections_tuple.
  - intros Hex. apply for_each_raises.
    + apply Forall_forall. intros h _.
      destruct (intersection path h) as [p|[|first l]|ps|gs] eqn:E.
      * right. eexists. apply one_hole_intersections_tuple. now rewrite E.
      * left. now apply one_hole_intersections_empty_curve.
      * right. eexists. apply one_hole_intersections_tuple. now rewrite E.
      * right. eexists. apply one_hole_intersections_tuple. now rewrite E.
      * right. eexists. apply one_hole_intersections_tuple. now rewrite E.
    + eapply Exists_impl; [|exact Hex].
      intros h Hh. now apply one_hole_intersections_empty_curve.
Qed.

End HoleIntersections.

(** The path from (4, 4, 0), in the hole of the holed square, to
    (8, 4, 0) leaves the hole through (6, 4, 0); the path from (7, 7, 0) to
    (8, 8, 0) stays clear of the hole, the intersection is an empty line
    and reading its first vertex fails. *)
Lemma hole_intersections_tuples_witness :
  ShapePrimitive.hole_intersections (flat_of holed_square)
    (Line3D [pt 4 4 0; pt 8 4 0])
  = Ok [[GPoint (pt 6 4 0)]]
  /\ ShapePrimitive.hole_intersections (flat_of holed_square)
       (Line3D [pt 7 7 0; pt 8 8 0])
     = Raise (IndexError "index 0 is out of bounds").
Proof.
  split.
  - rewrite (proj1 (hole_intersections_tuples (flat_of holed_square)
                      (Line3D [pt 4 4 0; pt 8 4 0]))).
    + reflexivity.
    + repeat constructor. vm_compute. discriminate.
  - apply (proj2 (hole_intersections_tuples (flat_of holed_square)
                    (Line3D [pt 7 7 0; pt 8 8 0]))).
    constructor. reflexivity.
Defined.

(* ===================================================================== *)
(** ** The elevation filter *)
(* ===================================================================== *)

Section Filter.
Context {L : Locate}.

(** X8.  On a path with elevations and with a numeric epsilon,
    [_check_z_intersection] never raises.  It treats the candidates one by
    one and in order: the result for two lists put end to end is the two
    results put end to end.  It returns no more points than it was given,
    and each of them is a candidate moved onto the path. *)
Theorem check_z_intersection_numeric (self : PrismaticShape.t)
    (xyz : list Point) (epsilon : float) (front back : list Geom) :
  PrismaticShape._epsilon self = DNum epsilon ->
  let path := Line3D xyz in
  exists kept_front kept_back,
    PrismaticShape._check_z_intersection self path front = Ok kept_front
    /\ PrismaticShape._check_z_intersection self path back = Ok kept_back
    /\ PrismaticShape._check_z_intersection self path (front ++ back)
       = Ok (kept_front ++ kept_back)
    /\ (List.length kept_front <= List.length front)%nat
    /\ Forall
         (fun g =>
            exists i,
              In i front /\ g = GPoint (interpolate path (project path i)))
         kept_front.
Proof.
  intros Heps. cbv zeta.
  rewrite !(fun candidates =>
              check_z_intersection_filter self (Line3D xyz) epsilon
                candidates eq_refl Heps).
  do 2 eexists. split; [reflexivity|]. split; [reflexivity|].
  split; [now rewrite flat_map_app|]. split.
  - induction front as [|i l IH]; [apply le_n|].
    cbn [flat_map]. cbv zeta in IH |- *. rewrite length_app.
    destruct (_ && _); cbn [List.length Nat.add]; lia.
  - apply Forall_forall. intros g Hg.
    apply in_flat_map in Hg. destruct Hg as (i & Hi & Hg).
    cbv zeta in Hg. destruct (_ && _) in Hg; [|destruct Hg].
    destruct Hg as [<-|[]]. eauto.
Qed.

(** X9.  The ways [_check_z_intersection] fails.  With no candidate it
    returns the empty tuple, whatever the path and epsilon.  On a path
    without elevations it raises [DimensionError] at the first candidate,
    when reading the elevation of the point moved onto the path, whatever
    epsilon is.  On a path with elevations and an epsilon that is not a
    number it raises [TypeError] at the first candidate. *)
Theorem check_z_intersection_failures (self : PrismaticShape.t)
    (path : LineString) (xy : list (float * float)) (xyz : list Point)
    (first : Geom) (others : list Geom) :
  PrismaticShape._check_z_intersection self path [] = Ok []
  /\ PrismaticShape._check_z_intersection self (Line2D xy)
       (first :: others)
     = Raise (DimensionError "This point has no z coordinate.")
  /\ ((forall epsilon, PrismaticShape._epsilon self <> DNum epsilon) ->
      PrismaticShape._check_z_intersection self (Line3D xyz)
        (first :: others)
      = Raise (TypeError "unsupported operand type(s)")).
Proof.
  split; [reflexivity|]. split; [reflexivity|].
  intros Hbad. unfold PrismaticShape._check_z_intersection.
  cbn [for_each]. unfold PrismaticShape.check_one. cbn [has_z].
  destruct (PrismaticShape._epsilon self) as [|p|x|s]; try reflexivity.
  now contradiction (Hbad x).
Qed.

(** X10.  The prism built without elevations filters nothing out: on a
    path with elevations and with a finite epsilon, every candidate whose
    elevation on the path is a number is returned, moved onto the path, in
    the order given. *)
Theorem unbounded_prism_keeps_candidates (flat : ShapePrimitive.t)
    (xyz : list Point) (epsilon : float) (candidates : list Geom) :
  let path := Line3D xyz in
  ShapePrimitive._epsilon flat = DNum epsilon ->
  F64.is_finite epsilon = true ->
  Forall
    (fun i =>
       F64.is_nan (pz (interpolate path (project path i))) = false)
    candidates ->
  PrismaticShape._check_z_intersection (unbounded_prism flat) path candidates
  = Ok (map (fun i => GPoint (interpolate path (project path i)))
          candidates).
Proof.
  cbv zeta. intros Heps Hfin Hall.
  rewrite (check_z_intersection_filter (unbounded_prism flat) (Line3D xyz)
             epsilon candidates eq_refl Heps).
  f_equal. induction Hall as [|i l Hi _ IH]; [reflexivity|].
  cbn [flat_map map]. cbv zeta in IH |- *. rewrite IH.
  cbn [unbounded_prism PrismaticShape._z0 PrismaticShape._zt].
  unfold F64.geb.
  change (SFleb ?a ?b) with (F64.leb a b).
  rewrite F64More.leb_inf by now apply F64Facts.sub_not_nan.
  rewrite F64More.neg_inf_leb by now apply F64More.add_not_nan.
  reflexivity.
Qed.

End Filter.

Lemma check_z_intersection_numeric_witness :
  exists kept_front kept_back,
    PrismaticShape._check_z_intersection
      (prism_of solid_square (F64.of_Z (-1)) (F64.of_Z 1))
      (Line3D [pt 5 (-5) 0; pt 5 15 0]) [GPoint (pt 5 0 0)] = Ok kept_front
    /\ PrismaticShape._check_z_intersection
         (prism_of solid_square (F64.of_Z (-1)) (F64.of_Z 1))
         (Line3D [pt 5 (-5) 0; pt 5 15 0]) [GPoint (pt 5 10 7)]
       = Ok kept_back
    /\ PrismaticShape._check_z_intersection
         (prism_of solid_square (F64.of_Z (-1)) (F64.of_Z 1))
         (Line3D [pt 5 (-5) 0; pt 5 15 0])
         ([GPoint (pt 5 0 0)] ++ [GPoint (pt 5 10 7)])
       = Ok (kept_front ++ kept_back)
    /\ (List.length kept_front <= List.length [GPoint (pt 5 0 0)])%nat
    /\ Forall
         (fun g =>
            exists i,
              In i [GPoint (pt 5 0 0)]
              /\ g = GPoint
                       (interpolate (Line3D [pt 5 (-5) 0; pt 5 15 0])
                          (project (Line3D [pt 5 (-5) 0; pt 5 15 0]) i)))
         kept_front.
Proof.
  apply (check_z_intersection_numeric
           (prism_of solid_square (F64.of_Z (-1)) (F64.of_Z 1))
           [pt 5 (-5) 0; pt 5 15 0] F64.micro).
  reflexivity.
Defined.

(** A prism whose epsilon was given as a string. *)
Lemma check_z_intersection_failures_witness :
  PrismaticShape._check_z_intersection
    (PrismaticShape.mk
       (ShapePrimitive.mk solid_square (DStr "obstacle") (DStr "1e-6"))
       (F64.of_Z 1) (F64.of_Z (-1)))
    (Line3D [pt 5 (-5) 0; pt 5 15 0]) [GPoint (pt 5 0 0)]
  = Raise (TypeError "unsupported operand type(s)").
Proof.
  apply (proj2 (proj2
           (check_z_intersection_failures
              (PrismaticShape.mk
                 (ShapePrimitive.mk solid_square (DStr "obstacle")
                    (DStr "1e-6"))
                 (F64.of_Z 1) (F64.of_Z (-1)))
              (Line3D [pt 5 (-5) 0; pt 5 15 0]) []
              [pt 5 (-5) 0; pt 5 15 0] (GPoint (pt 5 0 0)) []))).
  intros epsilon. discriminate.
Defined.

Lemma unbounded_prism_keeps_candidates_witness :
  PrismaticShape._check_z_intersection
    (unbounded_prism (flat_of solid_square))
    (Line3D [pt 5 (-5) 0; pt 5 15 0])
    [GPoint (pt 5 0 0); GPoint (pt 5 10 0)]
  = Ok (map
          (fun i =>
             GPoint
               (interpolate (Line3D [pt 5 (-5) 0; pt 5 15 0])
                  (project (Line3D [pt 5 (-5) 0; pt 5 15 0]) i)))
          [GPoint (pt 5 0 0); GPoint (pt 5 10 0)]).
Proof.
  apply (unbounded_prism_keeps_candidates (flat_of solid_square)
           [pt 5 (-5) 0; pt 5 15 0] F64.micro).
  - reflexivity.
  - reflexivity.
  - repeat constructor.
Defined.

(* ===================================================================== *)
(** ** Crossings of the base and top planes *)
(* ===================================================================== *)

Lemma for_each_Forall {A B : Type} (P : B -> Prop)
    (body : A -> result (list B)) (l : list A) (out : list B) :
  (forall a o, body a = Ok o -> Forall P o) ->
  for_each body l = Ok out -> Forall P out.
Proof.
  intros Hbody. revert out.
  induction l as [|a l IH]; cbn [for_each]; intros out H.
  - injection H as <-. constructor.
  - destruct (body a) as [o|e] eqn:Ea; [|discriminate]. cbn [bind] in H.
    destruct (for_each body l) as [rest|e]; [|discriminate].
    cbn [bind] in H. injection H as <-.
    apply Forall_app. split; [now apply (Hbody a) | now apply IH].
Qed.

Lemma for_each_length {A B : Type} (n : nat)
    (body : A -> result (list B)) (l : list A) (out : list B) :
  (forall a o, body a = Ok o -> (List.length o <= n)%nat) ->
  for_each body l = Ok out ->
  (List.length out <= n * List.length l)%nat.
Proof.
  intros Hbody. revert out.
  induction l as [|a l IH]; cbn [for_each]; intros out H.
  - injection H as <-. cbn. lia.
  - destruct (body a) as [o|e] eqn:Ea; [|discriminate]. cbn [bind] in H.
    destruct (for_each body l) as [rest|e]; [|discriminate].
    cbn [bind] in H. injection H as <-.
    rewrite length_app. cbn [List.length].
    specialize (Hbody a o Ea). specialize (IH rest eq_refl). lia.
Qed.

Section Planes.
Context {C : Containment} {S : Segments}.

Lemma z_intersection_one_cases (self : PrismaticShape.t) (s : LineString)
    (o : list Point) :
  PrismaticShape.z_intersection_one self s = Ok o ->
  o = []
  \/ exists a b,
       s = Line3D [a; b]
       /\ o = PrismaticShape.plane_crossings self s (pz a) (pz b).
Proof.
  unfold PrismaticShape.z_intersection_one.
  destruct (negb _); [intros [= <-]; now left|].
  destruct s as [xy|[|a [|b [|c xyz]]]]; try discriminate.
  intros [= <-]. right. now exists a, b.
Qed.

Lemma plane_crossings_at_most_two (self : PrismaticShape.t)
    (s : LineString) (z_first z_last : float) :
  (List.length (PrismaticShape.plane_crossings self s z_first z_last)
   <= 2)%nat.
Proof.
  unfold PrismaticShape.plane_crossings. cbv zeta. rewrite length_app.
  do 2 destruct (_ && _ && _); cbn; lia.
Qed.

(** X11.  Whenever [_z_intersection] returns for a 3D path, every point it
    returns lies within the polygon, and there are at most two of them for
    each segment the path was cut into. *)
Theorem z_intersection_within (self : PrismaticShape.t)
    (xyz : list Point) (crossings : list Point) :
  PrismaticShape._z_intersection self (Line3D xyz) = Ok crossings ->
  Forall (fun p => point_within p (PrismaticShape._shape self) = true)
    crossings
  /\ exists segments,
       split (Line3D xyz) (tl xyz) = Ok segments
       /\ (List.length crossings <= 2 * List.length segments)%nat.
Proof.
  cbn [PrismaticShape._z_intersection]. intros H.
  destruct (split (Line3D xyz) (tl xyz)) as [segments|e]; [|discriminate].
  cbn [bind] in H. split.
  - eapply for_each_Forall; [|exact H].
    intros s o Ho. apply z_intersection_one_cases in Ho.
    destruct Ho as [-> | (a & b & _ & ->)]; [constructor|].
    apply Forall_forall. intros p Hp.
    apply plane_crossing_accepted in Hp.
    now destruct Hp as (f & _ & _ & _ & W & _).
  - exists segments. split; [reflexivity|].
    eapply for_each_length; [|exact H].
    intros s o Ho. apply z_intersection_one_cases in Ho.
    destruct Ho as [-> | (a & b & _ & ->)]; [cbn; lia|].
    apply plane_crossings_at_most_two.
Qed.

Lemma plane_crossings_unbounded (flat : ShapePrimitive.t) (s : LineString)
    (z_first z_last : float) :
  PrismaticShape.plane_crossings (unbounded_prism flat) s z_first z_last
  = [].
Proof.
  unfold PrismaticShape.plane_crossings. cbv zeta.
  cbn [unbounded_prism PrismaticShape._z0 PrismaticShape._zt].
  rewrite !F64Facts.not_finite_outside
    by apply F64More.div_infinite.
  reflexivity.
Qed.

(** X12.  The prism built without elevations has no base and no top to
    cross.  For a 3D path that the cut turns into two-vertex 3D segments
    [_z_intersection] returns the empty list; and for any path at all,
    whenever it returns, it returns no point. *)
Theorem unbounded_prism_no_plane_crossing (flat : ShapePrimitive.t)
    (xyz : list Point) (segments : list LineString) :
  split (Line3D xyz) (tl xyz) = Ok segments ->
  Forall (fun s => exists a b, s = Line3D [a; b]) segments ->
  PrismaticShape._z_intersection (unbounded_prism flat) (Line3D xyz) = Ok []
  /\ (forall path crossings,
        PrismaticShape._z_intersection (unbounded_prism flat) path
        = Ok crossings ->
        crossings = []).
Proof.
  intros Hsplit Hcut. split.
  - cbn [PrismaticShape._z_intersection]. rewrite Hsplit. cbn [bind].
    clear Hsplit.
    induction Hcut as [|s l (a & b & ->) _ IH]; [reflexivity|].
    cbn [for_each]. rewrite IH.
    unfold PrismaticShape.z_intersection_one.
    rewrite plane_crossings_unbounded. now destruct (negb _).
  - intros path crossings H.
    assert (F : Forall (fun _ => False) crossings).
    { assert (B : forall s o,
                 PrismaticShape.z_intersection_one (unbounded_prism flat) s
                 = Ok o -> Forall (fun _ : Point => False) o).
      { intros s o Ho. apply z_intersection_one_cases in Ho.
        destruct Ho as [-> | (a & b & _ & ->)]; [constructor|].
        rewrite plane_crossings_unbounded. constructor. }
      unfold PrismaticShape._z_intersection in H.
      destruct path as [[|p [|q xy]]|path_xyz]; try discriminate;
        match type of H with
        | context [split ?l ?c] =>
            destruct (split l c) as [pieces|e]; [|discriminate]
        end;
        cbn [bind] in H; eapply for_each_Forall; eauto. }
    destruct F as [|p l []]. reflexivity.
Qed.

(* ===================================================================== *)
(** ** Containment in a prism *)
(* ===================================================================== *)

Lemma forallb_Forall {A : Type} (f : A -> bool) (l : list A) :
  forallb f l = true <-> Forall (fun a => f a = true) l.
Proof.
  rewrite forallb_forall, Forall_forall. reflexivity.
Qed.

(** X13.  [PrismaticShape.is_path_inside] refuses a path without
    elevations with an [AssertionError].  For a 3D path it returns, and the
    answer is true exactly when the flat shape contains the path and the
    elevation of every vertex is strictly between the top and the base. *)
Theorem prism_is_path_inside (self : PrismaticShape.t) :
  (forall xy,
     PrismaticShape.is_path_inside self (Line2D xy)
     = Raise (AssertionError "path must have xyz coordinates"))
  /\ (forall xyz,
        exists inside,
          PrismaticShape.is_path_inside self (Line3D xyz) = Ok inside
          /\ (inside = true <->
              ShapePrimitive.is_path_inside (PrismaticShape.base self)
                (Line3D xyz) = true
              /\ Forall
                   (fun p =>
                      F64.ltb (PrismaticShape._zt self) (pz p) = true
                      /\ F64.ltb (pz p) (PrismaticShape._z0 self) = true)
                   xyz)).
Proof.
  split; [reflexivity|].
  intros xyz. eexists. split; [reflexivity|].
  cbn [PrismaticShape.elevations].
  rewrite !andb_true_iff, !forallb_Forall, !Forall_map, !Forall_forall.
  unfold F64.gtb, F64.ltb. firstorder.
Qed.

(** X14.  A prism whose top is not strictly above its base (the top
    elevation is not smaller than the base elevation, or one of them is a
    NaN) contains no point and no path with at least one vertex. *)
Theorem inverted_prism_is_empty (self : PrismaticShape.t) (point : Point)
    (first : Point) (others : list Point) :
  F64.ltb (PrismaticShape._zt self) (PrismaticShape._z0 self) = false ->
  PrismaticShape.is_point_inside self point = false
  /\ PrismaticShape.is_path_inside self (Line3D (first :: others))
     = Ok false.
Proof.
  intros Hinv.
  assert (N : forall z,
             F64.gtb z (PrismaticShape._zt self)
             && F64.ltb z (PrismaticShape._z0 self) = false).
  { intros z. apply F64Facts.not_true_false. intros H.
    apply andb_true_iff in H. destruct H as [H1 H2].
    unfold F64.gtb in H1.
    rewrite (F64Facts.ltb_trans _ z _ H1 H2) in Hinv. discriminate. }
  split.
  - unfold PrismaticShape.is_point_inside. cbv zeta.
    rewrite <- andb_assoc, N. apply andb_false_r.
  - unfold PrismaticShape.is_path_inside.
    cbn [has_z PrismaticShape.elevations map forallb]. f_equal.
    specialize (N (pz first)).
    destruct (F64.gtb (pz first) _), (F64.ltb (pz first) _);
      try discriminate; cbn [andb];
      rewrite ?andb_false_r; reflexivity.
Qed.

(** X17.  Raising the top or lowering the base keeps what was inside
    inside: a point or a path inside a prism is inside every prism over the
    same flat shape whose top is at or above and whose base is at or below
    the first one's. *)
Theorem wider_prism_contains (self : PrismaticShape.t) (z0 zt : float)
    (point : Point) (path : LineString) :
  F64.leb zt (PrismaticShape._zt self) = true ->
  F64.leb (PrismaticShape._z0 self) z0 = true ->
  (PrismaticShape.is_point_inside self point = true ->
   PrismaticShape.is_point_inside
     (PrismaticShape.mk (PrismaticShape.base self) z0 zt) point = true)
  /\ (PrismaticShape.is_path_inside self path = Ok true ->
      PrismaticShape.is_path_inside
        (PrismaticShape.mk (PrismaticShape.base self) z0 zt) path
      = Ok true).
Proof.
  intros Htop Hbase.
  assert (T : forall z, F64.gtb z (PrismaticShape._zt self) = true ->
                        F64.gtb z zt = true).
  { intros z H. unfold F64.gtb in *.
    exact (F64Facts.leb_ltb_trans _ _ _ Htop H). }
  assert (B : forall z, F64.ltb z (PrismaticShape._z0 self) = true ->
                        F64.ltb z z0 = true).
  { intros z H. exact (F64Facts.ltb_leb_trans _ _ _ H Hbase). }
  split.
  - unfold PrismaticShape.is_point_inside. cbv zeta.
    cbn [PrismaticShape.base PrismaticShape._z0 PrismaticShape._zt].
    rewrite !andb_true_iff. intros [[W H1] H2]. auto.
  - unfold PrismaticShape.is_path_inside.
    destruct (has_z path); [|discriminate].
    cbn [PrismaticShape.base PrismaticShape._z0 PrismaticShape._zt].
    intros [= H]. f_equal. revert H.
    rewrite !andb_true_iff, !forallb_forall. intros [[W H1] H2].
    repeat split; auto.
Qed.

End Planes.

(* ===================================================================== *)
(** ** The down component for an inverted prism *)
(* ===================================================================== *)

Section Inverted.
Context {C : Containment} {D : Distance}.

(** X16.  When the base elevation is strictly smaller than the top
    elevation, clipping always lands on the base: for every point whose
    elevation is a number, the down component of the three nearest vectors
    is the base elevation minus the point's, also for a point between the
    two. *)
Theorem inverted_prism_down (self : PrismaticShape.t) (point : Point) :
  F64.ltb (PrismaticShape._z0 self) (PrismaticShape._zt self) = true ->
  F64.is_nan (pz point) = false ->
  vd (PrismaticShape.nearest_exterior self point)
  = F64.sub (PrismaticShape._z0 self) (pz point)
  /\ vd (PrismaticShape.nearest_hole self point)
     = F64.sub (PrismaticShape._z0 self) (pz point)
  /\ vd (PrismaticShape.nearest_boundary self point)
     = F64.sub (PrismaticShape._z0 self) (pz point).
Proof.
  intros Hinv Hz.
  unfold PrismaticShape.nearest_exterior, PrismaticShape.nearest_hole,
    PrismaticShape.nearest_boundary, PrismaticShape._z_difference.
  cbv zeta. cbn [set_down vd].
  rewrite (F64More.clip_inverted _ _ _ Hz Hinv). auto.
Qed.

End Inverted.

(** The path climbing from (1, 5, -10) to (9, 5, 10) through the square
    prism between -5 and 5 crosses the base at (7, 5, 5) and the top at
    (3, 5, -5). *)
Lemma z_intersection_within_witness :
  Forall
    (fun p =>
       point_within p
         (PrismaticShape._shape
            (prism_of solid_square (F64.of_Z (-5)) (F64.of_Z 5))) = true)
    [pt 7 5 5; pt 3 5 (-5)]
  /\ exists segments,
       split (Line3D [pt 1 5 (-10); pt 9 5 10])
         (tl [pt 1 5 (-10); pt 9 5 10]) = Ok segments
       /\ (List.length [pt 7 5 5; pt 3 5 (-5)]
           <= 2 * List.length segments)%nat.
Proof.
  apply (z_intersection_within
           (prism_of solid_square (F64.of_Z (-5)) (F64.of_Z 5))
           [pt 1 5 (-10); pt 9 5 10]).
  vm_compute. reflexivity.
Defined.

Lemma unbounded_prism_no_plane_crossing_witness :
  PrismaticShape._z_intersection (unbounded_prism (flat_of solid_square))
    (Line3D [pt 1 5 (-10); pt 9 5 10]) = Ok []
  /\ (forall path crossings,
        PrismaticShape._z_intersection
          (unbounded_prism (flat_of solid_square)) path = Ok crossings ->
        crossings = []).
Proof.
  apply (unbounded_prism_no_plane_crossing (flat_of solid_square)
           [pt 1 5 (-10); pt 9 5 10]
           [Line3D [pt 1 5 (-10); pt 9 5 10]]).
  - vm_compute. reflexivity.
  - repeat constructor. now do 2 eexists.
Defined.

Lemma inverted_prism_is_empty_witness :
  PrismaticShape.is_point_inside
    (prism_of solid_square (F64.of_Z 5) (F64.of_Z (-5))) (pt 5 5 0) = false
  /\ PrismaticShape.is_path_inside
       (prism_of solid_square (F64.of_Z 5) (F64.of_Z (-5)))
       (Line3D (pt 5 5 0 :: [pt 6 6 0]))
     = Ok false.
Proof.
  apply (inverted_prism_is_empty
           (prism_of solid_square (F64.of_Z 5) (F64.of_Z (-5)))).
  reflexivity.
Defined.

Lemma wider_prism_contains_witness :
  (PrismaticShape.is_point_inside
     (prism_of solid_square (F64.of_Z (-1)) (F64.of_Z 1)) (pt 5 5 0) = true ->
   PrismaticShape.is_point_inside
     (PrismaticShape.mk
        (PrismaticShape.base
           (prism_of solid_square (F64.of_Z (-1)) (F64.of_Z 1)))
        (F64.of_Z 3) (F64.of_Z (-2)))
     (pt 5 5 0) = true)
  /\ (PrismaticShape.is_path_inside
        (prism_of solid_square (F64.of_Z (-1)) (F64.of_Z 1))
        (Line3D [pt 4 4 0; pt 6 6 0]) = Ok true ->
      PrismaticShape.is_path_inside
        (PrismaticShape.mk
           (PrismaticShape.base
              (prism_of solid_square (F64.of_Z (-1)) (F64.of_Z 1)))
           (F64.of_Z 3) (F64.of_Z (-2)))
        (Line3D [pt 4 4 0; pt 6 6 0])
      = Ok true).
Proof.
  apply (wider_prism_contains
           (prism_of solid_square (F64.of_Z (-1)) (F64.of_Z 1))
           (F64.of_Z 3) (F64.of_Z (-2))); reflexivity.
Defined.

Lemma inverted_prism_down_witness :
  vd (PrismaticShape.nearest_exterior
        (prism_of solid_square (F64.of_Z 5) (F64.of_Z (-5))) (pt 5 5 0))
  = F64.sub (F64.of_Z (-5)) F64.zero
  /\ vd (PrismaticShape.nearest_hole
           (prism_of solid_square (F64.of_Z 5) (F64.of_Z (-5))) (pt 5 5 0))
     = F64.sub (F64.of_Z (-5)) F64.zero
  /\ vd (PrismaticShape.nearest_boundary
           (prism_of solid_square (F64.of_Z 5) (F64.of_Z (-5))) (pt 5 5 0))
     = F64.sub (F64.of_Z (-5)) F64.zero.
Proof.
  apply (inverted_prism_down
           (prism_of solid_square (F64.of_Z 5) (F64.of_Z (-5)))
           (pt 5 5 0)); reflexivity.
Defined.
